(** * Maestro: argument building, ACP adaptation and stream-json extraction

    A shallow embedding of
    - the [process:spawn] IPC handler of [src/main/ipc/handlers/process.ts]
      (argv construction and shell selection),
    - the ACP adapter ([extractText], [mapToolStatus],
      [acpUpdateToParseEvent]) together with the ACP types it reads,
    - [extractResultFromStreamJson] of the wizard's conversation manager,
    - the session registry's [kill], which lives in the process manager.

    Conventions.  A JavaScript string is a [string]; one [ascii] stands for
    one code unit below 256.  [undefined] for an optional field is [None].
    Values of TypeScript type [any] / [unknown] are [JsValue]s. *)

From Stdlib Require Import Floats.SpecFloat Ascii String ZArith DecimalString.
From stdpp Require Import gmap strings list fin_maps.

Local Open Scope string_scope.
Local Open Scope list_scope.

(** ** JavaScript values *)

(** The values [JSON.parse] and the settings stores can hold, and the
    built-in functions and objects of the runtime, which a read of an
    inherited property yields; a built-in is kept by its name ([Object],
    [Object.prototype.toString], ...).  Numbers are IEEE-754 doubles kept as
    data; only their truthiness is ever used. *)
#[warnings="-register-all"]
Inductive JsValue : Type :=
  | JUndefined
  | JNull
  | JBool (b : bool)
  | JNum (x : spec_float)
  | JStr (s : string)
  | JArr (items : list JsValue)
  | JObj (props : list (string * JsValue))
  | JBuiltin (name : string).

(** ToBoolean. *)
Definition truthy (v : JsValue) : bool :=
  match v with
  | JUndefined | JNull => false
  | JBool b => b
  | JNum (S754_zero _) | JNum S754_nan => false
  | JNum _ => true
  | JStr s => negb (String.eqb s "")
  | JArr _ | JObj _ | JBuiltin _ => true
  end.

(** Truthiness of an optional string ([prompt?], [shell?], ...). *)
Definition truthyStr (s : option string) : bool :=
  match s with
  | Some s => negb (String.eqb s "")
  | None => false
  end.

(** Truthiness of an optional boolean ([readOnlyMode?]). *)
Definition truthyBool (b : option bool) : bool :=
  match b with
  | Some b => b
  | None => false
  end.

(** [Array.prototype.includes] on an array of strings. *)
Definition includes (l : list string) (x : string) : bool :=
  existsb (String.eqb x) l.

(** [Array.prototype.some]. *)
Definition some {A} (p : A -> bool) (l : list A) : bool := existsb p l.

(** ** The spawn handler of [process.ts] *)

Module Process.

(** One entry of [agent.configOptions]. *)
Record ConfigOption := {
  key : string;
  default : JsValue;
  argBuilder : option (JsValue -> list string);
}.

(** The fields of an agent definition that the handler reads. *)
Record AgentConfig := {
  batchModePrefix : option (list string);
  jsonOutputArgs : option (list string);
  resumeArgs : option (string -> list string);
  readOnlyArgs : option (list string);
  modelArgs : option (string -> list string);
  configOptions : option (list ConfigOption);
  requiresPty : option bool;
}.

(** The payload of [process:spawn]. *)
Record SpawnConfig := {
  sessionId : string;
  toolType : string;
  cwd : string;
  command : string;
  args : list string;
  prompt : option string;
  shell : option string;
  images : option (list string);
  agentSessionId : option string;
  readOnlyMode : option bool;
  modelId : option string;
}.

(** [agentConfigsStore]: [configs] maps a tool type to its stored options. *)
Abbreviation AgentConfigsData := (gmap string (gmap string JsValue)).

(** [settingsStore], restricted to its string-valued entries. *)
Abbreviation MaestroSettings := (gmap string string).

(** [store.get(key, defaultValue)]. *)
Definition storeGet (settings : MaestroSettings) (k dflt : string) : string :=
  option.default dflt (settings !! k).

(** The functions every plain object inherits from [Object.prototype],
    besides [constructor] and [__proto__]. *)
Definition objectPrototypeMethods : list string :=
  ["__defineGetter__"; "__defineSetter__"; "hasOwnProperty";
   "__lookupGetter__"; "__lookupSetter__"; "isPrototypeOf";
   "propertyIsEnumerable"; "toString"; "valueOf"; "toLocaleString"].

(** What a plain object without an own property [k] answers for [o[k]]:
    the property of [Object.prototype] of that name, else [undefined]. *)
Definition inheritedProp (k : string) : JsValue :=
  if String.eqb k "constructor" then JBuiltin "Object"
  else if String.eqb k "__proto__" then JBuiltin "Object.prototype"
  else if includes objectPrototypeMethods k then JBuiltin ("Object.prototype." +:+ k)
  else JUndefined.

(** [agentConfigsStore.get('configs', {})[toolType] || {}], for a tool type
    that is not the name of an inherited property: the stored record, or an
    empty one.  (Under an inherited name the handler is handed a built-in of
    the runtime and reads the options off it; the theorems that depend on
    the record read say so.) *)
Definition agentConfigFor (configs : AgentConfigsData) (tool : string)
  : gmap string JsValue :=
  option.default ∅ (configs !! tool).

(** [agentConfig[option.key]] on the stored record, a plain object: its own
    property when it has one, else what it inherits. *)
Definition configLookup (agentConfig : gmap string JsValue) (k : string) : JsValue :=
  match agentConfig !! k with
  | Some v => v
  | None => inheritedProp k
  end.

Definition isUndefined (v : JsValue) : bool :=
  match v with JUndefined => true | _ => false end.

(** Lines 136-138: what the record answers unless it is [undefined], else
    the option's default. *)
Definition resolveValue (agentConfig : gmap string JsValue) (o : ConfigOption) : JsValue :=
  if negb (isUndefined (configLookup agentConfig o.(key)))
  then configLookup agentConfig o.(key)
  else o.(default).

(** Lines 95-125, the statements in their order on the running [finalArgs]. *)
Definition applyArgBuilders (agent : AgentConfig) (config : SpawnConfig)
    (finalArgs : list string) : list string :=
  let finalArgs :=
    match agent.(batchModePrefix) with
    | Some pre => if truthyStr config.(prompt) then pre ++ finalArgs else finalArgs
    | None => finalArgs
    end in
  let finalArgs :=
    match agent.(jsonOutputArgs) with
    | Some json =>
        if negb (some (fun arg => includes json arg) finalArgs)
        then finalArgs ++ json else finalArgs
    | None => finalArgs
    end in
  let finalArgs :=
    match config.(agentSessionId), agent.(resumeArgs) with
    | Some sid, Some gen =>
        if truthyStr (Some sid) then finalArgs ++ gen sid else finalArgs
    | _, _ => finalArgs
    end in
  let finalArgs :=
    match agent.(readOnlyArgs) with
    | Some ro => if truthyBool config.(readOnlyMode) then finalArgs ++ ro else finalArgs
    | None => finalArgs
    end in
  let finalArgs :=
    match config.(modelId), agent.(modelArgs) with
    | Some m, Some gen =>
        if truthyStr (Some m) then finalArgs ++ gen m else finalArgs
    | _, _ => finalArgs
    end in
  finalArgs.

(** Lines 133-144: one iteration of the [configOptions] loop. *)
Definition configStep (agentConfig : gmap string JsValue)
    (finalArgs : list string) (o : ConfigOption) : list string :=
  match o.(argBuilder) with
  | Some build => finalArgs ++ build (resolveValue agentConfig o)
  | None => finalArgs
  end.

(** Lines 130-145. *)
Definition applyConfigOptions (agent : AgentConfig) (configs : AgentConfigsData)
    (config : SpawnConfig) (finalArgs : list string) : list string :=
  match agent.(configOptions) with
  | Some opts =>
      fold_left (configStep (agentConfigFor configs config.(toolType))) opts finalArgs
  | None => finalArgs
  end.

(** Lines 90-145: the argv handed to the process manager.  [agent] is what
    [agentDetector.getAgent(config.toolType)] resolved to. *)
Definition buildFinalArgs (agent : option AgentConfig) (configs : AgentConfigsData)
    (config : SpawnConfig) : list string :=
  let finalArgs := config.(args) in
  match agent with
  | Some agent =>
      applyConfigOptions agent configs config (applyArgBuilders agent config finalArgs)
  | None => finalArgs
  end.

(** Line 148. *)
Definition shellToUse (settings : MaestroSettings) (config : SpawnConfig) : option string :=
  if truthyStr config.(shell) then config.(shell)
  else if String.eqb config.(toolType) "terminal"
       then Some (storeGet settings "defaultShell" "zsh")
       else None.

End Process.

(** ** The ACP types read by the adapter ([main/acp/types.ts]) *)

Module Acp.

Record TextContent := { text : string }.

Record ImageContent := {
  data : string;
  img_mimeType : string;
  img_uri : option string;
}.

Record ResourceLink := {
  link_uri : string;
  name : string;
  link_mimeType : option string;
  link_description : option string;
}.

(** [TextResourceContents | BlobResourceContents]: the adapter tells them
    apart by ['text' in res]. *)
Record ResourceContents := {
  res_uri : string;
  res_text : option string;
  res_blob : option string;
  res_mimeType : option string;
}.

Record EmbeddedResource := { resource : ResourceContents }.

(** A [ContentBlock] as the object it is at run time: the adapter probes its
    keys with [in], one after the other.  A block of the declared union has
    exactly one of the four keys. *)
Record ContentBlock := {
  cb_text : option TextContent;
  cb_image : option ImageContent;
  cb_resource_link : option ResourceLink;
  cb_resource : option EmbeddedResource;
}.

Definition textBlock (t : TextContent) : ContentBlock :=
  {| cb_text := Some t; cb_image := None; cb_resource_link := None; cb_resource := None |}.
Definition imageBlock (i : ImageContent) : ContentBlock :=
  {| cb_text := None; cb_image := Some i; cb_resource_link := None; cb_resource := None |}.
Definition resourceLinkBlock (l : ResourceLink) : ContentBlock :=
  {| cb_text := None; cb_image := None; cb_resource_link := Some l; cb_resource := None |}.
Definition resourceBlock (r : EmbeddedResource) : ContentBlock :=
  {| cb_text := None; cb_image := None; cb_resource_link := None; cb_resource := Some r |}.

Record ContentChunk := { content : ContentBlock }.

Record Diff := { path : string; oldText : option string; newText : string }.
Record Terminal := { terminalId : string }.

Inductive ToolCallContent :=
  | TccContent (c : ContentBlock)
  | TccDiff (d : Diff)
  | TccTerminal (t : Terminal).

Record ToolCallLocation := { loc_path : string; line : option nat }.

(** [status?: ToolCallStatus]: whatever string the agent sent, if any. *)
Record ToolCall := {
  toolCallId : string;
  title : string;
  kind : option string;
  status : option string;
  rawInput : JsValue;
  rawOutput : JsValue;
  tc_content : option (list ToolCallContent);
  locations : option (list ToolCallLocation);
}.

Record ToolCallUpdate := {
  u_toolCallId : string;
  u_title : option string;
  u_kind : option string;
  u_status : option string;
  u_rawInput : JsValue;
  u_rawOutput : JsValue;
  u_content : option (list ToolCallContent);
  u_locations : option (list ToolCallLocation);
}.

Record PlanEntry := {
  entry_content : string;
  priority : string;
  entry_status : string;
}.

Record Plan := { entries : list PlanEntry }.

Record AvailableCommand := {
  cmd_name : string;
  description : string;
  input_hint : option string;
}.

Record AvailableCommandsUpdate := { availableCommands : list AvailableCommand }.

Record CurrentModeUpdate := { currentModeId : string }.

(** A [SessionUpdate] as the object it is at run time.  [other] holds the
    properties the adapter never looks at, so an update of a kind it does
    not know has the eight keys absent. *)
Record SessionUpdate := {
  user_message_chunk : option ContentChunk;
  agent_message_chunk : option ContentChunk;
  agent_thought_chunk : option ContentChunk;
  tool_call : option ToolCall;
  tool_call_update : option ToolCallUpdate;
  plan : option Plan;
  available_commands_update : option AvailableCommandsUpdate;
  current_mode_update : option CurrentModeUpdate;
  other : list (string * JsValue);
}.

(** The update kinds of the declared union. *)
Inductive UpdateKind :=
  | UserMessageChunk (c : ContentChunk)
  | AgentMessageChunk (c : ContentChunk)
  | AgentThoughtChunk (c : ContentChunk)
  | ToolCallStart (tc : ToolCall)
  | ToolCallChange (tc : ToolCallUpdate)
  | PlanUpdate (p : Plan)
  | AvailableCommands (a : AvailableCommandsUpdate)
  | CurrentMode (m : CurrentModeUpdate)
  | Unrecognized (props : list (string * JsValue)).

Definition noUpdate (props : list (string * JsValue)) : SessionUpdate :=
  {| user_message_chunk := None; agent_message_chunk := None;
     agent_thought_chunk := None; tool_call := None; tool_call_update := None;
     plan := None; available_commands_update := None;
     current_mode_update := None; other := props |}.

(** The single-key object of each kind. *)
Definition updateOf (k : UpdateKind) : SessionUpdate :=
  match k with
  | UserMessageChunk c =>
      {| user_message_chunk := Some c; agent_message_chunk := None;
         agent_thought_chunk := None; tool_call := None; tool_call_update := None;
         plan := None; available_commands_update := None;
         current_mode_update := None; other := [] |}
  | AgentMessageChunk c =>
      {| user_message_chunk := None; agent_message_chunk := Some c;
         agent_thought_chunk := None; tool_call := None; tool_call_update := None;
         plan := None; available_commands_update := None;
         current_mode_update := None; other := [] |}
  | AgentThoughtChunk c =>
      {| user_message_chunk := None; agent_message_chunk := None;
         agent_thought_chunk := Some c; tool_call := None; tool_call_update := None;
         plan := None; available_commands_update := None;
         current_mode_update := None; other := [] |}
  | ToolCallStart tc =>
      {| user_message_chunk := None; agent_message_chunk := None;
         agent_thought_chunk := None; tool_call := Some tc; tool_call_update := None;
         plan := None; available_commands_update := None;
         current_mode_update := None; other := [] |}
  | ToolCallChange tc =>
      {| user_message_chunk := None; agent_message_chunk := None;
         agent_thought_chunk := None; tool_call := None; tool_call_update := Some tc;
         plan := None; available_commands_update := None;
         current_mode_update := None; other := [] |}
  | PlanUpdate p =>
      {| user_message_chunk := None; agent_message_chunk := None;
         agent_thought_chunk := None; tool_call := None; tool_call_update := None;
         plan := Some p; available_commands_update := None;
         current_mode_update := None; other := [] |}
  | AvailableCommands a =>
      {| user_message_chunk := None; agent_message_chunk := None;
         agent_thought_chunk := None; tool_call := None; tool_call_update := None;
         plan := None; available_commands_update := Some a;
         current_mode_update := None; other := [] |}
  | CurrentMode m =>
      {| user_message_chunk := None; agent_message_chunk := None;
         agent_thought_chunk := None; tool_call := None; tool_call_update := None;
         plan := None; available_commands_update := None;
         current_mode_update := Some m; other := [] |}
  | Unrecognized props => noUpdate props
  end.

(** ** The event model the adapter produces

    [ParsedEvent] is declared in [parsers/agent-output-parser]; its shape is
    read off the object literals the adapter builds.  [toolOutput] is [None]
    when the literal has no such key. *)
Inductive ParsedEvent :=
  | EvText (text : string) (isPartial : bool) (sessionId : string)
  | EvThinking (text : string) (isPartial : bool) (sessionId : string)
  | EvToolUse (toolName : string) (toolInput : JsValue)
      (toolOutput : option JsValue) (toolId : string) (status : string)
      (sessionId : string)
  | EvPlan (entries : list PlanEntry) (sessionId : string)
  | EvInit (slashCommands : list string) (sessionId : string)
  | EvSessionId (sessionId : string)
  | EvResult (text : string) (sessionId : string) (stopReason : string)
  | EvError (errType : string) (message : string) (recoverable : bool)
      (sessionId : string).

(** The [type] tag of an event. *)
Definition eventType (e : ParsedEvent) : string :=
  match e with
  | EvText _ _ _ => "text"
  | EvThinking _ _ _ => "thinking"
  | EvToolUse _ _ _ _ _ _ => "tool_use"
  | EvPlan _ _ => "plan"
  | EvInit _ _ => "init"
  | EvSessionId _ => "session_id"
  | EvResult _ _ _ => "result"
  | EvError _ _ _ _ => "error"
  end.

(** The [status] an event carries, if it is a tool invocation. *)
Definition eventStatus (e : ParsedEvent) : option string :=
  match e with
  | EvToolUse _ _ _ _ st _ => Some st
  | _ => None
  end.

(** ** The adapter *)

Definition extractText (block : ContentBlock) : string :=
  match block.(cb_text) with
  | Some t => t.(text)
  | None =>
  match block.(cb_image) with
  | Some _ => "[image]"
  | None =>
  match block.(cb_resource_link) with
  | Some l => "[resource: " +:+ l.(name) +:+ "]"
  | None =>
  match block.(cb_resource) with
  | Some r =>
      let res := r.(resource) in
      match res.(res_text) with
      | Some t => t
      | None => "[binary resource]"
      end
  | None => ""
  end end end end.

Definition mapToolStatus (status : option string) : string :=
  match status with
  | Some s =>
      if String.eqb s "pending" then "pending"
      else if String.eqb s "in_progress" then "running"
      else if String.eqb s "completed" then "completed"
      else if String.eqb s "failed" then "error"
      else "pending"
  | None => "pending"
  end.

(** [tc.title || '']. *)
Definition orEmpty (s : option string) : string :=
  if truthyStr s then option.default "" s else "".

Definition copyEntry (e : PlanEntry) : PlanEntry :=
  {| entry_content := e.(entry_content);
     entry_status := e.(entry_status);
     priority := e.(priority) |}.

Definition acpUpdateToParseEvent (sessionId : string) (update : SessionUpdate)
  : option ParsedEvent :=
  match update.(agent_message_chunk) with
  | Some chunk => Some (EvText (extractText chunk.(content)) true sessionId)
  | None =>
  match update.(agent_thought_chunk) with
  | Some chunk => Some (EvThinking (extractText chunk.(content)) true sessionId)
  | None =>
  match update.(user_message_chunk) with
  | Some _ => None
  | None =>
  match update.(tool_call) with
  | Some tc =>
      Some (EvToolUse tc.(title) tc.(rawInput) None tc.(toolCallId)
              (mapToolStatus tc.(status)) sessionId)
  | None =>
  match update.(tool_call_update) with
  | Some tc =>
      Some (EvToolUse (orEmpty tc.(u_title)) tc.(u_rawInput)
              (Some tc.(u_rawOutput)) tc.(u_toolCallId)
              (mapToolStatus tc.(u_status)) sessionId)
  | None =>
  match update.(plan) with
  | Some p => Some (EvPlan (map copyEntry p.(entries)) sessionId)
  | None =>
  match update.(available_commands_update) with
  | Some a => Some (EvInit (map cmd_name a.(availableCommands)) sessionId)
  | None =>
  match update.(current_mode_update) with
  | Some _ => None
  | None => None
  end end end end end end end end.

Definition createSessionIdEvent (sessionId : string) : ParsedEvent :=
  EvSessionId sessionId.

Definition createResultEvent (sessionId text stopReason : string) : ParsedEvent :=
  EvResult text sessionId stopReason.

Definition createErrorEvent (sessionId message : string) : ParsedEvent :=
  EvError "unknown" message false sessionId.

End Acp.

(** ** Stream-json extraction ([Wizard/services/conversationManager.ts]) *)

Module Wizard.

(** What a statement or expression can do besides yielding a value. *)
Inductive JsError := SyntaxError | TypeError.

Inductive Completion (A : Type) :=
  | Normal (a : A)
  | Thrown (e : JsError).
Arguments Normal {A} a.
Arguments Thrown {A} e.

Definition bind {A B} (c : Completion A) (k : A -> Completion B) : Completion B :=
  match c with
  | Normal a => k a
  | Thrown e => Thrown e
  end.

Notation "'let*' x ':=' c 'in' k" := (bind c (fun x => k))
  (at level 10, x name, c at level 100, k at level 200).

(** [try { body } catch { }] around a body that may [return]: a thrown error
    is dropped and control goes on after the statement. *)
Definition tryCatch {A} (body : Completion (option A)) : option A :=
  match body with
  | Normal r => r
  | Thrown _ => None
  end.

Definition newline : ascii := "010"%char.

(** [output.split('\n')]: never empty, the empty string gives one empty line. *)
Fixpoint split (output : string) : list string :=
  match output with
  | EmptyString => [EmptyString]
  | String c rest =>
      if Ascii.eqb c newline then EmptyString :: split rest
      else match split rest with
           | line :: lines => String c line :: lines
           | [] => [String c EmptyString]
           end
  end.

(** The inverse direction, [lines.join('\n')]. *)
Fixpoint join (lines : list string) : string :=
  match lines with
  | [] => EmptyString
  | [line] => line
  | line :: rest => line +:+ String newline (join rest)
  end.

(** WhiteSpace and LineTerminator code units below 256:
    TAB, LF, VT, FF, CR, SP and NBSP. *)
Definition isWhiteSpace (c : ascii) : bool :=
  let n := nat_of_ascii c in
  (Nat.leb 9 n && Nat.leb n 13) || Nat.eqb n 32 || Nat.eqb n 160.

Fixpoint trimStart (s : string) : string :=
  match s with
  | EmptyString => EmptyString
  | String c rest => if isWhiteSpace c then trimStart rest else s
  end.

(** [trimEnd], as a fold from the right: a white-space unit is dropped when
    nothing is kept after it. *)
Fixpoint trimEnd (s : string) : string :=
  match s with
  | EmptyString => EmptyString
  | String c rest =>
      match trimEnd rest with
      | EmptyString => if isWhiteSpace c then EmptyString else String c EmptyString
      | kept => String c kept
      end
  end.

Definition trim (s : string) : string := trimEnd (trimStart s).

(** [v[k]] for a key no prototype defines ([type], [result]): reading a
    property of [null] or [undefined] throws, a missing one is [undefined]. *)
Definition getProp (v : JsValue) (k : string) : Completion JsValue :=
  match v with
  | JUndefined | JNull => Thrown TypeError
  | JObj props =>
      Normal (option.default JUndefined
                (snd <$> find (fun kv => String.eqb (fst kv) k) props))
  | _ => Normal JUndefined
  end.

(** [v === s] for a string literal [s]. *)
Definition strictEqStr (v : JsValue) (s : string) : bool :=
  match v with
  | JStr s' => String.eqb s' s
  | _ => false
  end.

Section StreamJson.

(** [JSON.parse], with [None] for a thrown [SyntaxError]. *)
Variable JSON_parse : string -> option JsValue.

Definition parse (line : string) : Completion JsValue :=
  match JSON_parse line with
  | Some v => Normal v
  | None => Thrown SyntaxError
  end.

(** The body of the inner [try]: [Normal (Some r)] is [return r],
    [Normal None] falls out of the block. *)
Definition lineBody (line : string) : Completion (option JsValue) :=
  let* msg := parse line in
  let* ty := getProp msg "type" in
  if strictEqStr ty "result" then
    let* r := getProp msg "result" in
    if truthy r then Normal (Some r) else Normal None
  else Normal None.

(** The [for] loop over the lines. *)
Fixpoint scanLines (lines : list string) : option JsValue :=
  match lines with
  | [] => None
  | line :: rest =>
      if negb (truthy (JStr (trim line))) then scanLines rest
      else match tryCatch (lineBody line) with
           | Some r => Some r
           | None => scanLines rest
           end
  end.

(** The method itself; [None] is its [null]. *)
Definition extractResultFromStreamJson (output : string) : option JsValue :=
  tryCatch (Normal (scanLines (split output))).

(** A line the loop gets something out of. *)
Definition parses (line : string) : bool :=
  match JSON_parse line with Some _ => true | None => false end.

End StreamJson.

Definition hasNewline (line : string) : bool :=
  existsb (Ascii.eqb newline) (list_ascii_of_string line).

End Wizard.

(** ** The session registry and [kill]

    The handler of [process:kill] hands the session id to
    [processManager.kill].  The process manager ([main/process-manager]) lies
    outside this development; its registry is written from the
    specification. *)

Module Registry.

Inductive Role := ai | terminal.

#[global] Instance Role_eq_dec : EqDecision Role.
Proof. solve_decision. Defined.

#[global] Instance Role_countable : Countable Role.
Proof.
  refine (inj_countable' (fun r => match r with ai => false | terminal => true end)
            (fun b => if b then terminal else ai) _).
  by intros [].
Defined.

Inductive LaunchMode := PtyBacked | PipeBacked.

Inductive HandleState := starting | running | exited.

(** Modelled from the spec: the ProcessHandle of the data model (process
    id, launch mode, live or exited state, exit code once terminated); the
    process manager that declares it is missing. *)
Record ProcessHandle := {
  pid : nat;
  mode : LaunchMode;
  state : HandleState;
  exitCode : option Z;
}.

(** Modelled from the spec: the Session Registry, a map from the composite
    key of session id and role to the handle registered under it; the
    process manager that owns it is missing. *)
Abbreviation Registry := (gmap (string * Role) ProcessHandle).

Definition isLive (h : ProcessHandle) : bool :=
  match h.(state) with
  | exited => false
  | _ => true
  end.

(** The live handle of a session's role, if there is one. *)
Definition liveHandle (reg : Registry) (sessionId : string) (role : Role)
  : option ProcessHandle :=
  match reg !! (sessionId, role) with
  | Some h => if isLive h then Some h else None
  | None => None
  end.

(** What a control operation leaves behind: the registry, the processes it
    sent a termination signal to, and its boolean answer. *)
Record Outcome := {
  registry : Registry;
  signalled : list nat;
  found : bool;
}.

(** Modelled from the spec: [kill(sessionId)] of the process manager, which
    is missing.  It terminates the live handles of both roles and answers
    whether there was one; it only signals, and leaves the removal from the
    registry to exit detection. *)
Definition kill (sessionId : string) (reg : Registry) : Outcome :=
  let targets := omap (liveHandle reg sessionId) [ai; terminal] in
  {| registry := reg;
     signalled := map pid targets;
     found := negb (bool_decide (targets = [])) |}.

(** Modelled from the spec: exit detection, the single path that takes a
    handle out of the registry; the read loop that runs it is missing. *)
Definition onExit (sessionId : string) (role : Role) (reg : Registry) : Registry :=
  delete (sessionId, role) reg.

(** Both roles of a session have been seen to exit. *)
Definition exitsObserved (sessionId : string) (reg : Registry) : Registry :=
  onExit sessionId terminal (onExit sessionId ai reg).

End Registry.

(** ** The argv fragments, each on its own *)

Module ProcessSpec.
Import Process.

(** The batch-mode prefix: there when the agent declares one and the prompt
    is a non-empty string. *)
Definition batchFragment (agent : AgentConfig) (config : SpawnConfig) : list string :=
  match agent.(batchModePrefix) with
  | Some pre => if truthyStr config.(prompt) then pre else []
  | None => []
  end.

(** The args the JSON-output test runs over. *)
Definition assembled (agent : AgentConfig) (config : SpawnConfig) : list string :=
  batchFragment agent config ++ config.(args).

(** The JSON-output flags: there unless some token assembled so far is one
    of them. *)
Definition jsonFragment (agent : AgentConfig) (config : SpawnConfig) : list string :=
  match agent.(jsonOutputArgs) with
  | Some json =>
      if bool_decide (Exists (fun arg => arg ∈ json) (assembled agent config))
      then [] else json
  | None => []
  end.

Definition resumeFragment (agent : AgentConfig) (config : SpawnConfig) : list string :=
  match config.(agentSessionId), agent.(resumeArgs) with
  | Some sid, Some gen => if String.eqb sid "" then [] else gen sid
  | _, _ => []
  end.

Definition readOnlyFragment (agent : AgentConfig) (config : SpawnConfig) : list string :=
  match config.(readOnlyMode), agent.(readOnlyArgs) with
  | Some true, Some ro => ro
  | _, _ => []
  end.

Definition modelFragment (agent : AgentConfig) (config : SpawnConfig) : list string :=
  match config.(modelId), agent.(modelArgs) with
  | Some m, Some gen => if String.eqb m "" then [] else gen m
  | _, _ => []
  end.

(** The value an option is built from: what the stored record answers
    under the option's key when that is defined, else the option's
    default. *)
Definition storedOrDefault (agentConfig : gmap string JsValue) (o : ConfigOption) : JsValue :=
  match configLookup agentConfig o.(key) with
  | JUndefined => o.(default)
  | v => v
  end.

(** The fragment of one option: empty without an argument builder. *)
Definition optionFragment (agentConfig : gmap string JsValue) (o : ConfigOption) : list string :=
  match o.(argBuilder) with
  | Some build => build (storedOrDefault agentConfig o)
  | None => []
  end.

(** The user-config fragments, in the order of the agent's options. *)
Definition configFragment (agent : AgentConfig) (configs : AgentConfigsData)
    (config : SpawnConfig) : list string :=
  match agent.(configOptions) with
  | Some opts =>
      flat_map (optionFragment (option.default ∅ (configs !! config.(toolType)))) opts
  | None => []
  end.

(** Everything appended after the JSON-output step. *)
Definition laterFragments (agent : AgentConfig) (configs : AgentConfigsData)
    (config : SpawnConfig) : list string :=
  resumeFragment agent config ++ readOnlyFragment agent config
  ++ modelFragment agent config ++ configFragment agent configs config.

(** Two options, or two descriptors, that cannot be told apart by calling
    their generators. *)
Definition sameOption (o o' : ConfigOption) : Prop :=
  o.(key) = o'.(key) ∧ o.(default) = o'.(default) ∧
  match o.(argBuilder), o'.(argBuilder) with
  | Some b, Some b' => ∀ v, b v = b' v
  | None, None => True
  | _, _ => False
  end.

Definition sameGenerator (g g' : option (string -> list string)) : Prop :=
  match g, g' with
  | Some f, Some f' => ∀ s, f s = f' s
  | None, None => True
  | _, _ => False
  end.

Definition sameDescriptor (a a' : AgentConfig) : Prop :=
  a.(batchModePrefix) = a'.(batchModePrefix) ∧
  a.(jsonOutputArgs) = a'.(jsonOutputArgs) ∧
  sameGenerator a.(resumeArgs) a'.(resumeArgs) ∧
  a.(readOnlyArgs) = a'.(readOnlyArgs) ∧
  sameGenerator a.(modelArgs) a'.(modelArgs) ∧
  match a.(configOptions), a'.(configOptions) with
  | Some os, Some os' => Forall2 sameOption os os'
  | None, None => True
  | _, _ => False
  end.

(** The resolution as the specification words it, for a request that
    gives no override: the value stored under the option's key, else the
    option's default. *)
Definition claimedValue (agentConfig : gmap string JsValue) (o : ConfigOption) : JsValue :=
  match agentConfig !! o.(key) with
  | Some JUndefined | None => o.(default)
  | Some v => v
  end.

(** How often a token occurs in an argv. *)
Definition occurrences (tok : string) (argv : list string) : nat :=
  length (filter (fun arg => arg = tok) argv).

(** *** Sample descriptors and requests *)

Definition contextOption : ConfigOption :=
  {| key := "contextWindow"; default := JStr "200k";
     argBuilder := Some (fun v => match v with
                                  | JStr s => ["--context"; s]
                                  | _ => []
                                  end) |}.

(** An agent in the style of OpenCode: [run] for batch mode,
    [--format json] for JSON output, [--resume <id>] to resume. *)
Definition sampleAgent : AgentConfig :=
  {| batchModePrefix := Some ["run"];
     jsonOutputArgs := Some ["--format"; "json"];
     resumeArgs := Some (fun sid => ["--resume"; sid]);
     readOnlyArgs := Some ["--agent"; "plan"];
     modelArgs := Some (fun m => ["--model"; m]);
     configOptions :=
       Some [ contextOption;
              {| key := "label"; default := JStr ""; argBuilder := None |} ];
     requiresPty := Some false |}.

(** The same agent with its generators written another way. *)
Definition sampleAgentBis : AgentConfig :=
  {| batchModePrefix := Some ["run"];
     jsonOutputArgs := Some ["--format"; "json"];
     resumeArgs := Some (fun sid => "--resume" :: [sid]);
     readOnlyArgs := Some ["--agent"; "plan"];
     modelArgs := Some (fun m => ["--model"] ++ [m]);
     configOptions :=
       Some [ {| key := "contextWindow"; default := JStr "200k";
                 argBuilder := Some (fun v => match v with
                                              | JStr s => "--context" :: [s]
                                              | _ => []
                                              end) |};
              {| key := "label"; default := JStr ""; argBuilder := None |} ];
     requiresPty := Some false |}.



Definition sampleConfig : SpawnConfig :=
  {| sessionId := "s1-ai"; toolType := "opencode"; cwd := "/tmp";
     command := "opencode"; args := ["--verbose"];
     prompt := Some "hello"; shell := None; images := None;
     agentSessionId := Some "abc123"; readOnlyMode := Some true;
     modelId := Some "big" |}.

(** An agent whose [outputFormat] option builds the very JSON-output flags. *)
Definition formatAgent : AgentConfig :=
  {| batchModePrefix := None;
     jsonOutputArgs := Some ["--format"; "json"];
     resumeArgs := None; readOnlyArgs := None; modelArgs := None;
     configOptions :=
       Some [ {| key := "outputFormat"; default := JStr "json";
                 argBuilder := Some (fun v => match v with
                                              | JStr s => ["--format"; s]
                                              | _ => []
                                              end) |} ];
     requiresPty := None |}.

Definition plainConfig : SpawnConfig :=
  {| sessionId := "s2-ai"; toolType := "opencode"; cwd := "/tmp";
     command := "opencode"; args := [];
     prompt := None; shell := None; images := None;
     agentSessionId := None; readOnlyMode := None; modelId := None |}.

(** Base args that already ask for a format, further back. *)
Definition formattedConfig : SpawnConfig :=
  {| sessionId := "s4-ai"; toolType := "opencode"; cwd := "/tmp";
     command := "opencode"; args := ["--verbose"; "--print-logs"; "--format"; "json"];
     prompt := Some "hello"; shell := None; images := None;
     agentSessionId := None; readOnlyMode := None; modelId := None |}.

Definition terminalConfig : SpawnConfig :=
  {| sessionId := "s3-terminal"; toolType := "terminal"; cwd := "/tmp";
     command := "zsh"; args := [];
     prompt := None; shell := None; images := None;
     agentSessionId := None; readOnlyMode := None; modelId := None |}.

End ProcessSpec.

(** ** The adapter's table of kinds *)

Module AcpSpec.
Import Acp.

(** The key that tags an update of each kind. *)
Definition kindName (k : UpdateKind) : string :=
  match k with
  | UserMessageChunk _ => "user_message_chunk"
  | AgentMessageChunk _ => "agent_message_chunk"
  | AgentThoughtChunk _ => "agent_thought_chunk"
  | ToolCallStart _ => "tool_call"
  | ToolCallChange _ => "tool_call_update"
  | PlanUpdate _ => "plan"
  | AvailableCommands _ => "available_commands_update"
  | CurrentMode _ => "current_mode_update"
  | Unrecognized _ => "unrecognized"
  end.

(** The event variant each kind is turned into, [None] for a kind that
    yields no event. *)
Definition variantOf (k : UpdateKind) : option string :=
  match k with
  | AgentMessageChunk _ => Some "text"
  | AgentThoughtChunk _ => Some "thinking"
  | ToolCallStart _ | ToolCallChange _ => Some "tool_use"
  | PlanUpdate _ => Some "plan"
  | AvailableCommands _ => Some "init"
  | UserMessageChunk _ | CurrentMode _ | Unrecognized _ => None
  end.

(** Start and update of a tool call are the two kinds of one invocation. *)
Definition isToolCall (k : UpdateKind) : bool :=
  match k with
  | ToolCallStart _ | ToolCallChange _ => true
  | _ => false
  end.

(** The statuses the table names. *)
Definition knownStatuses : list string :=
  ["pending"; "in_progress"; "completed"; "failed"].

Definition sampleImage : ImageContent :=
  {| data := "iVBORw0KGgo="; img_mimeType := "image/png"; img_uri := None |}.

Definition sampleLink : ResourceLink :=
  {| link_uri := "file:///tmp/notes.md"; name := "notes.md";
     link_mimeType := None; link_description := None |}.

Definition sampleBlob : EmbeddedResource :=
  {| resource := {| res_uri := "file:///tmp/a.bin"; res_text := None;
                    res_blob := Some "AAEC"; res_mimeType := None |} |}.

Definition sampleTextResource : EmbeddedResource :=
  {| resource := {| res_uri := "file:///tmp/a.txt"; res_text := Some "hello";
                    res_blob := None; res_mimeType := None |} |}.

Definition sampleToolUpdate (st : option string) : ToolCallUpdate :=
  {| u_toolCallId := "call-1"; u_title := None; u_kind := None; u_status := st;
     u_rawInput := JUndefined; u_rawOutput := JStr "ok";
     u_content := None; u_locations := None |}.

End AcpSpec.

(** ** What a line of the stream contributes *)

Module WizardSpec.
Import Wizard.

(** A line of white space only. *)
Definition isBlank (line : string) : bool :=
  forallb isWhiteSpace (list_ascii_of_string line).

Definition lookupProp (props : list (string * JsValue)) (k : string) : option JsValue :=
  snd <$> find (fun kv => String.eqb (fst kv) k) props.

(** The result a parsed record carries: it must be an object whose [type]
    is the string [result] and whose [result] is truthy. *)
Definition resultOf (msg : JsValue) : option JsValue :=
  match msg with
  | JObj props =>
      match lookupProp props "type" with
      | Some (JStr ty) =>
          if String.eqb ty "result" then
            match lookupProp props "result" with
            | Some r => if truthy r then Some r else None
            | None => None
            end
          else None
      | _ => None
      end
  | _ => None
  end.

(** What one line gives: nothing when it is blank or does not parse. *)
Definition lineResult (JSON_parse : string -> option JsValue) (line : string)
  : option JsValue :=
  if isBlank line then None
  else match JSON_parse line with
       | Some msg => resultOf msg
       | None => None
       end.

End WizardSpec.

(** ** Sessions [kill] has nothing to do for *)

Module RegistrySpec.
Import Registry.

(** The answer for a session that is not there: nothing signalled, the
    registry as it was. *)
Definition notFound (reg : gmap (string * Role) ProcessHandle) : Outcome :=
  {| registry := reg; signalled := []; found := false |}.

(** Under each role the session has no handle, or one that has exited. *)
Definition unknownOrExited (reg : gmap (string * Role) ProcessHandle)
    (sessionId : string) : Prop :=
  ∀ role, match reg !! (sessionId, role) with
          | Some h => h.(state) = exited
          | None => True
          end.

End RegistrySpec.

(** ** Sample streams and registries *)

Module Samples.
Import Wizard Registry.

Definition dq : string := String "034"%char EmptyString.

(** [s] between double quotes. *)
Definition quoted (s : string) : string := dq +:+ s +:+ dq.

(** The line [{"type":"result","result":"done"}]. *)
Definition resultLine : string :=
  "{" +:+ quoted "type" +:+ ":" +:+ quoted "result" +:+ ","
      +:+ quoted "result" +:+ ":" +:+ quoted "done" +:+ "}".

(** The line [{"type":"system"}]. *)
Definition systemLine : string :=
  "{" +:+ quoted "type" +:+ ":" +:+ quoted "system" +:+ "}".

(** [JSON.parse] cut down to the lines of the sample stream; every other
    text is a syntax error. *)
Definition sampleParse (line : string) : option JsValue :=
  if String.eqb line resultLine
  then Some (JObj [("type", JStr "result"); ("result", JStr "done")])
  else if String.eqb line systemLine
  then Some (JObj [("type", JStr "system")])
  else if String.eqb line "null" then Some JNull
  else None.

Definition sampleStream : list string :=
  ["Warning: no config found"; systemLine; ""; "null"; "} stray {"; resultLine; "bye"].

Definition liveAi : ProcessHandle :=
  {| pid := 101; mode := PipeBacked; state := running; exitCode := None |}.

Definition liveTerminal : ProcessHandle :=
  {| pid := 102; mode := PtyBacked; state := running; exitCode := None |}.

Definition deadAi : ProcessHandle :=
  {| pid := 77; mode := PipeBacked; state := exited; exitCode := Some 0%Z |}.

(** Session [a] has both roles running, session [b] an agent that exited. *)
Definition sampleRegistry : gmap (string * Role) ProcessHandle :=
  <[("a", ai) := liveAi]> (<[("a", terminal) := liveTerminal]> (<[("b", ai) := deadAi]> ∅)).

End Samples.

(** ** The rest of the spawn handler, and [process:runCommand] *)

Module Handlers.
Import Process.

(** [Array.prototype.indexOf]: the index of the first occurrence, [-1]
    without one. *)
Fixpoint indexOfFrom (l : list string) (x : string) (i : Z) : Z :=
  match l with
  | [] => (-1)%Z
  | y :: rest => if String.eqb y x then i else indexOfFrom rest x (i + 1)%Z
  end.

Definition indexOf (l : list string) (x : string) : Z := indexOfFrom l x 0%Z.

(** [l[i]] for an index that is not negative; [undefined] past the end. *)
Definition at_ (l : list string) (i : Z) : option string := l !! Z.to_nat i.

(** Lines 151-157: the constant [agentSessionId] taken from the argv. *)
Definition extractedAgentSessionId (finalArgs : list string) (config : SpawnConfig)
  : option string :=
  let resumeArgIndex := indexOf finalArgs "--resume" in
  let sessionArgIndex := indexOf finalArgs "--session" in
  if negb (resumeArgIndex =? -1)%Z then at_ finalArgs (resumeArgIndex + 1)%Z
  else if negb (sessionArgIndex =? -1)%Z then at_ finalArgs (sessionArgIndex + 1)%Z
  else config.(agentSessionId).

(** Line 167, [...(agentSessionId && { agentSessionId })]: the agent session
    id of the log line; the key is written only for a truthy id. *)
Definition loggedAgentSessionId (finalArgs : list string) (config : SpawnConfig)
  : option string :=
  let agentSessionId := extractedAgentSessionId finalArgs config in
  if truthyStr agentSessionId then agentSessionId else None.

(** Line 170: the prompt written to the log, cut after 500 units; the key
    is left out when there is no prompt. *)
Definition loggedPrompt (config : SpawnConfig) : option string :=
  match config.(prompt) with
  | Some p =>
      if truthyStr (Some p) then
        Some (if (500 <? String.length p)%nat
              then substring 0 500 p +:+ "..." else p)
      else None
  | None => None
  end.

(** The payload of [process:runCommand]. *)
Record RunCommandConfig := {
  rc_sessionId : string;
  rc_command : string;
  rc_cwd : string;
  rc_shell : option string;
}.

(** Line 260: the shell [runCommand] hands to the process manager. *)
Definition runCommandShell (settings : MaestroSettings) (config : RunCommandConfig)
  : string :=
  match config.(rc_shell) with
  | Some sh => if truthyStr (Some sh) then sh else storeGet settings "defaultShell" "zsh"
  | None => storeGet settings "defaultShell" "zsh"
  end.

(** A request with the fields the builders test set anew. *)
Definition withOptions (config : SpawnConfig) (p sid : option string)
    (ro : option bool) (m : option string) : SpawnConfig :=
  {| sessionId := config.(sessionId); toolType := config.(toolType);
     cwd := config.(cwd); command := config.(command); args := config.(args);
     prompt := p; shell := config.(shell); images := config.(images);
     agentSessionId := sid; readOnlyMode := ro; modelId := m |}.

(** An absent value for an empty string, [false] for an absent flag. *)
Definition presentStr (s : option string) : option string :=
  match s with
  | Some s => if String.eqb s "" then None else Some s
  | None => None
  end.

Definition presentFlag (b : option bool) : option bool :=
  match b with
  | Some true => Some true
  | _ => None
  end.

End Handlers.

(** ** The conversation manager ([Wizard/services/conversationManager.ts]) *)

Module Conversation.
Import Wizard.

(** [WizardMessage], declared in [WizardContext]: the fields this file
    reads or writes. *)
Record WizardMessage := {
  msg_id : string;
  msg_timestamp : Z;
  role : string;
  msg_content : string;
  msg_confidence : option JsValue;
  msg_ready : option bool;
}.

(** [Omit<WizardMessage, 'id' | 'timestamp'>]. *)
Record NewMessage := {
  new_role : string;
  new_content : string;
  new_confidence : option JsValue;
  new_ready : option bool;
}.

(** [LogEntry], declared in the renderer's types: the fields written here. *)
Record LogEntry := {
  log_id : string;
  log_timestamp : Z;
  source : string;
  log_text : string;
  delivered : option bool;
}.

(** [StructuredAgentResponse] and [ParsedResponse], declared in
    [wizardPrompts]: the fields this file reads or writes. *)
Record StructuredAgentResponse := {
  message : string;
  confidence : JsValue;
  ready : bool;
}.

Record ParsedResponse := {
  structured : option StructuredAgentResponse;
  rawText : string;
  parseSuccess : bool;
  parseError : option string;
}.

Record SendMessageResult := {
  success : bool;
  response : option ParsedResponse;
  error : option string;
  rawOutput : option string;
}.

(** The session of the manager.  The two listeners are kept as flags:
    [true] while their cleanup function is stored. *)
Record ConversationSession := {
  sessionId : string;
  agentType : string;
  directoryPath : string;
  projectName : string;
  isActive : bool;
  systemPrompt : string;
  outputBuffer : string;
  pendingResolve : bool;
  dataListener : bool;
  exitListener : bool;
}.

(** What a method does to the outside: the IPC calls it makes, the
    callbacks it invokes and the promise it settles. *)
Inductive Effect :=
  | CleanupData
  | CleanupExit
  | ProcessKill (sessionId : string)
  | OnChunk (data : string)
  | Resolve (result : SendMessageResult).

Definition nl : string := String newline EmptyString.

(** [cleanupListeners]: each stored cleanup is called and forgotten. *)
Definition cleanupListeners (session : option ConversationSession)
  : option ConversationSession * list Effect :=
  match session with
  | Some s =>
      (Some {| sessionId := s.(sessionId); agentType := s.(agentType);
               directoryPath := s.(directoryPath); projectName := s.(projectName);
               isActive := s.(isActive); systemPrompt := s.(systemPrompt);
               outputBuffer := s.(outputBuffer);
               pendingResolve := s.(pendingResolve);
               dataListener := false; exitListener := false |},
       (if s.(dataListener) then [CleanupData] else [])
       ++ (if s.(exitListener) then [CleanupExit] else []))
  | None => (None, [])
  end.

(** [endConversation]: the listeners are removed, the process is killed
    (a failing kill is swallowed) and the session is dropped. *)
Definition endConversation (session : option ConversationSession)
  : option ConversationSession * list Effect :=
  match session with
  | None => (None, [])
  | Some s =>
      let '(_, effs) := cleanupListeners session in
      (None, effs ++ [ProcessKill s.(sessionId)])
  end.

Section Manager.

(** [generateSystemPrompt({ agentName, agentPath })] of [wizardPrompts]. *)
Variable generateSystemPrompt : string -> string -> string.

(** [formatUserMessage] of [wizardPrompts]. *)
Variable formatUserMessage : string -> string.

(** [parseStructuredOutput] of [wizardPrompts], on whatever it is given. *)
Variable parseStructuredOutput : JsValue -> ParsedResponse.

(** [isReadyToProceed] of [wizardPrompts]. *)
Variable isReadyToProceed : StructuredAgentResponse -> bool.

Variable JSON_parse : string -> option JsValue.

(** [startConversation]; [newId] is what [generateWizardSessionId] drew. *)
Definition startConversation (newId : string) (agent dir project : string)
    (session : option ConversationSession)
  : option ConversationSession * list Effect * string :=
  let '(_, effs) :=
    match session with
    | Some _ => endConversation session
    | None => (session, [])
    end in
  (Some {| sessionId := newId; agentType := agent; directoryPath := dir;
           projectName := project; isActive := true;
           systemPrompt := generateSystemPrompt project dir;
           outputBuffer := ""; pendingResolve := false;
           dataListener := false; exitListener := false |},
   effs, newId).

Definition isConversationActive (session : option ConversationSession) : bool :=
  match session with
  | Some s => s.(isActive)
  | None => false
  end.

(** [this.session?.sessionId || null]. *)
Definition getSessionId (session : option ConversationSession) : option string :=
  match session with
  | Some s => if truthyStr (Some s.(sessionId)) then Some s.(sessionId) else None
  | None => None
  end.

(** One pass of the loop over the history. *)
Definition appendMessage (prompt : string) (msg : WizardMessage) : string :=
  if String.eqb msg.(role) "user"
  then prompt +:+ "User: " +:+ msg.(msg_content) +:+ nl +:+ nl
  else if String.eqb msg.(role) "assistant"
  then prompt +:+ "Assistant: " +:+ msg.(msg_content) +:+ nl +:+ nl
  else prompt.

Definition buildPromptWithContext (session : option ConversationSession)
    (userMessage : string) (conversationHistory : list WizardMessage) : string :=
  match session with
  | None => formatUserMessage userMessage
  | Some s =>
      let prompt := s.(systemPrompt) +:+ nl +:+ nl in
      let prompt :=
        if (0 <? List.length conversationHistory)%nat
        then fold_left appendMessage conversationHistory
               (prompt +:+ "## Previous Conversation" +:+ nl +:+ nl)
        else prompt in
      let prompt := prompt +:+ "## Current Message" +:+ nl +:+ nl in
      prompt +:+ formatUserMessage userMessage
  end.

(** [extractedResult || output]: what [parseAgentOutput] has parsed. *)
Definition textToParse (output : string) : JsValue :=
  match extractResultFromStreamJson JSON_parse output with
  | Some r => if truthy r then r else JStr output
  | None => JStr output
  end.

Definition parseAgentOutput (session : option ConversationSession) : ParsedResponse :=
  match session with
  | None =>
      {| structured := None; rawText := ""; parseSuccess := false;
         parseError := Some "No active session" |}
  | Some s => parseStructuredOutput (textToParse s.(outputBuffer))
  end.

(** The data listener of [spawnAgentForMessage]. *)
Definition onData (session : option ConversationSession) (sid data : string)
  : option ConversationSession * list Effect :=
  match session with
  | Some s =>
      if String.eqb sid s.(sessionId) then
        (Some {| sessionId := s.(sessionId); agentType := s.(agentType);
                 directoryPath := s.(directoryPath); projectName := s.(projectName);
                 isActive := s.(isActive); systemPrompt := s.(systemPrompt);
                 outputBuffer := s.(outputBuffer) +:+ data;
                 pendingResolve := s.(pendingResolve);
                 dataListener := s.(dataListener);
                 exitListener := s.(exitListener) |},
         [OnChunk data])
      else (session, [])
  | None => (session, [])
  end.

(** [String(code)] for an exit code. *)
Definition showCode (code : Z) : string := NilZero.string_of_int (Z.to_int code).

(** The exit listener of [spawnAgentForMessage]. *)
Definition onExit (session : option ConversationSession) (sid : string) (code : Z)
  : option ConversationSession * list Effect :=
  match session with
  | Some s =>
      if String.eqb sid s.(sessionId) then
        let '(session', effs) := cleanupListeners session in
        if (code =? 0)%Z then
          (session',
           effs ++ [Resolve {| success := true;
                               response := Some (parseAgentOutput session');
                               error := None;
                               rawOutput := outputBuffer <$> session' |}])
        else
          (session',
           effs ++ [Resolve {| success := false; response := None;
                               error := Some ("Agent exited with code " +:+ showCode code);
                               rawOutput := outputBuffer <$> session' |}])
      else (session, [])
  | None => (session, [])
  end.

(** The data listener run over the chunks that arrive, in their order. *)
Definition feed (session : option ConversationSession)
    (chunks : list (string * string)) : option ConversationSession :=
  fold_left (fun st chunk => fst (onData st chunk.1 chunk.2)) chunks session.

(** The request [spawnAgentForMessage] sends to [process:spawn];
    [agentArgs] is [agent.args], which may be missing. *)
Definition wizardSpawnConfig (s : ConversationSession) (agentCommand : string)
    (agentArgs : option (list string)) (fullPrompt : string) : Process.SpawnConfig :=
  {| Process.sessionId := s.(sessionId);
     Process.toolType := s.(agentType);
     Process.cwd := s.(directoryPath);
     Process.command := agentCommand;
     Process.args := option.default [] agentArgs;
     Process.prompt := Some fullPrompt;
     Process.shell := None;
     Process.images := None;
     Process.agentSessionId := None;
     Process.readOnlyMode := None;
     Process.modelId := None |}.

Definition createUserMessage (content : string) : NewMessage :=
  {| new_role := "user"; new_content := content;
     new_confidence := None; new_ready := None |}.

(** [structured?.message || response.rawText] and the optional chains. *)
Definition createAssistantMessage (response : ParsedResponse) : NewMessage :=
  {| new_role := "assistant";
     new_content :=
       match response.(structured) with
       | Some st => if truthyStr (Some st.(message)) then st.(message)
                    else response.(rawText)
       | None => response.(rawText)
       end;
     new_confidence := confidence <$> response.(structured);
     new_ready := ready <$> response.(structured) |}.

Definition shouldAutoProceed (response : ParsedResponse) : bool :=
  response.(parseSuccess) &&
  match response.(structured) with
  | Some st => isReadyToProceed st
  | None => false
  end.

End Manager.

(** What a message of the history adds to the prompt. *)
Definition renderMessage (msg : WizardMessage) : string :=
  if String.eqb msg.(role) "user"
  then "User: " +:+ msg.(msg_content) +:+ nl +:+ nl
  else if String.eqb msg.(role) "assistant"
  then "Assistant: " +:+ msg.(msg_content) +:+ nl +:+ nl
  else "".

(** The part of the prompt that holds the history. *)
Definition historyBlock (history : list WizardMessage) : string :=
  match history with
  | [] => ""
  | _ => "## Previous Conversation" +:+ nl +:+ nl
         +:+ fold_right (fun msg rest => renderMessage msg +:+ rest) "" history
  end.

(** The chunks of one session, glued in their order. *)
Definition chunksOf (sid : string) (chunks : list (string * string)) : string :=
  fold_right (fun chunk rest =>
                if String.eqb chunk.1 sid then chunk.2 +:+ rest else rest)
             "" chunks.

Section LogEntries.

(** [generateLogEntryId] draws on the clock and on [Math.random]: [genId k]
    is the id of its [k]-th call. *)
Variable genId : nat -> string.

Definition toLogEntry (k : nat) (msg : WizardMessage) : LogEntry :=
  {| log_id := genId k;
     log_timestamp := msg.(msg_timestamp);
     source := if String.eqb msg.(role) "user" then "user"
               else if String.eqb msg.(role) "assistant" then "ai"
               else "system";
     log_text := msg.(msg_content);
     delivered := if String.eqb msg.(role) "user" then Some true else None |}.

(** [messages.map(...)], the first id drawn being the [k]-th. *)
Fixpoint convertFrom (k : nat) (messages : list WizardMessage) : list LogEntry :=
  match messages with
  | [] => []
  | msg :: rest => toLogEntry k msg :: convertFrom (S k) rest
  end.

Definition convertWizardMessagesToLogEntries (messages : list WizardMessage)
  : list LogEntry :=
  convertFrom 0 messages.

(** The pictograph that opens the header, as its UTF-8 bytes. *)
Definition clipboard : string :=
  String "240" (String "159" (String "147" (String "139" EmptyString))).

Definition dquote : string := String "034" EmptyString.

(** [createProjectDiscoveryLogs]; [now] is what [Date.now()] gave.  The
    header draws the first id, the conversation the following ones. *)
Definition createProjectDiscoveryLogs (now : Z) (messages : list WizardMessage)
    (projectName : string) : list LogEntry :=
  {| log_id := genId 0;
     log_timestamp := now;
     source := "system";
     log_text := clipboard +:+ " Project Discovery conversation from setup wizard for "
                 +:+ dquote
                 +:+ (if truthyStr (Some projectName) then projectName else "your project")
                 +:+ dquote;
     delivered := None |}
  :: convertFrom 1 messages.

End LogEntries.

Definition PROJECT_DISCOVERY_TAB_NAME : string := "Project Discovery".

End Conversation.

(** ** Sample data for the handlers, the adapter and the conversation *)

Module MoreSamples.
Import Conversation.

(** The session an event belongs to. *)
Definition eventSessionId (e : Acp.ParsedEvent) : string :=
  match e with
  | Acp.EvText _ _ sid | Acp.EvThinking _ _ sid | Acp.EvToolUse _ _ _ _ _ sid
  | Acp.EvPlan _ sid | Acp.EvInit _ sid | Acp.EvSessionId sid
  | Acp.EvResult _ sid _ | Acp.EvError _ _ _ sid => sid
  end.

Definition wizardSession : ConversationSession :=
  {| sessionId := "wizard-1"; agentType := "opencode"; directoryPath := "/tmp/p";
     projectName := "demo"; isActive := true; systemPrompt := "You are a guide.";
     outputBuffer := ""; pendingResolve := true;
     dataListener := true; exitListener := true |}.

Definition userSays (t : Z) (text : string) : WizardMessage :=
  {| msg_id := "m"; msg_timestamp := t; role := "user"; msg_content := text;
     msg_confidence := None; msg_ready := None |}.

Definition assistantSays (t : Z) (text : string) : WizardMessage :=
  {| msg_id := "m"; msg_timestamp := t; role := "assistant"; msg_content := text;
     msg_confidence := None; msg_ready := None |}.

Definition systemSays (t : Z) (text : string) : WizardMessage :=
  {| msg_id := "m"; msg_timestamp := t; role := "system"; msg_content := text;
     msg_confidence := None; msg_ready := None |}.

Definition sampleHistory : list WizardMessage :=
  [userSays 1 "hi"; systemSays 2 "note"; assistantSays 3 "hello"].

(** Ids [log-0], [log-1], ... *)
Definition sampleGenId (k : nat) : string :=
  "log-" +:+ NilZero.string_of_uint (Nat.to_uint k).

(** Ids [log], [xlog], [xxlog], ..., which never repeat. *)
Fixpoint tallyId (k : nat) : string :=
  match k with
  | O => "log"
  | S k' => String "x" (tallyId k')
  end.

Definition sampleFormat (text : string) : string := text +:+ " (answer in JSON)".

Definition sampleParseStructured (v : JsValue) : ParsedResponse :=
  {| structured := None;
     rawText := match v with JStr s => s | _ => "" end;
     parseSuccess := false; parseError := Some "not structured" |}.

End MoreSamples.

(** * Properties of the spawn handler *)

Module ProcessFacts.
Import Process ProcessSpec.

Lemma includes_elem_of (l : list string) (x : string) :
  includes l x = true ↔ x ∈ l.
Proof.
  unfold includes. rewrite existsb_exists. split.
  - intros (y & Hy & Heq). apply String.eqb_eq in Heq. subst y.
    by apply list_elem_of_In.
  - intros Hx. exists x. split; [by apply list_elem_of_In | apply String.eqb_refl].
Qed.

Lemma some_includes_decide (json soFar : list string) :
  some (fun arg => includes json arg) soFar
  = bool_decide (Exists (fun arg => arg ∈ json) soFar).
Proof.
  unfold some. apply eq_true_iff_eq.
  rewrite existsb_exists, bool_decide_eq_true, Exists_exists. split.
  - intros (x & Hin & Hx). exists x. split; [by apply list_elem_of_In|].
    by apply includes_elem_of.
  - intros (x & Hin & Hx). exists x. split; [by apply list_elem_of_In|].
    by apply includes_elem_of.
Qed.

Lemma resolveValue_storedOrDefault (agentConfig : gmap string JsValue) (o : ConfigOption) :
  resolveValue agentConfig o = storedOrDefault agentConfig o.
Proof.
  unfold resolveValue, storedOrDefault.
  by destruct (configLookup agentConfig (key o)).
Qed.

Lemma configStep_fragment (agentConfig : gmap string JsValue) acc (o : ConfigOption) :
  configStep agentConfig acc o = acc ++ optionFragment agentConfig o.
Proof.
  unfold configStep, optionFragment.
  destruct (argBuilder o); [|by rewrite app_nil_r].
  by rewrite resolveValue_storedOrDefault.
Qed.

(** The loop over the options appends their fragments in the options' order. *)
Lemma fold_configStep (agentConfig : gmap string JsValue) (opts : list ConfigOption) :
  ∀ acc, fold_left (configStep agentConfig) opts acc
         = acc ++ flat_map (optionFragment agentConfig) opts.
Proof.
  induction opts as [|o opts IH]; intros acc; simpl.
  - by rewrite app_nil_r.
  - rewrite IH, configStep_fragment. by rewrite <- app_assoc.
Qed.

Lemma applyConfigOptions_fragment agent configs config acc :
  applyConfigOptions agent configs config acc
  = acc ++ configFragment agent configs config.
Proof.
  unfold applyConfigOptions, configFragment, agentConfigFor.
  destruct (configOptions agent); [apply fold_configStep | by rewrite app_nil_r].
Qed.

Lemma applyArgBuilders_fragments agent config :
  applyArgBuilders agent config config.(args)
  = batchFragment agent config ++ config.(args) ++ jsonFragment agent config
    ++ resumeFragment agent config ++ readOnlyFragment agent config
    ++ modelFragment agent config.
Proof.
  unfold applyArgBuilders.
  assert (Hpre : match batchModePrefix agent with
                 | Some pre => if truthyStr (prompt config)
                               then pre ++ args config else args config
                 | None => args config
                 end = assembled agent config).
  { unfold assembled, batchFragment.
    destruct (batchModePrefix agent); [|done]. by destruct (truthyStr _). }
  rewrite Hpre. clear Hpre.
  assert (Hjson : match jsonOutputArgs agent with
                  | Some json =>
                      if negb (some (fun arg => includes json arg) (assembled agent config))
                      then assembled agent config ++ json else assembled agent config
                  | None => assembled agent config
                  end = assembled agent config ++ jsonFragment agent config).
  { unfold jsonFragment. destruct (jsonOutputArgs agent); [|by rewrite app_nil_r].
    rewrite some_includes_decide. destruct (bool_decide _); simpl; [by rewrite app_nil_r|done]. }
  rewrite Hjson. clear Hjson.
  unfold resumeFragment, readOnlyFragment, modelFragment, assembled.
  destruct (agentSessionId config) as [sid|], (resumeArgs agent) as [gen|],
    (readOnlyMode config) as [[]|], (readOnlyArgs agent) as [ro|],
    (modelId config) as [m|], (modelArgs agent) as [mgen|]; simpl;
    repeat match goal with |- context [String.eqb ?s ""] => destruct (String.eqb s "") end;
    simpl; rewrite ?app_nil_r, <- ?app_assoc; reflexivity.
Qed.

(** The argv in closed form. *)
Lemma buildFinalArgs_closed agent configs config :
  buildFinalArgs (Some agent) configs config
  = batchFragment agent config ++ config.(args) ++ jsonFragment agent config
    ++ resumeFragment agent config ++ readOnlyFragment agent config
    ++ modelFragment agent config ++ configFragment agent configs config.
Proof.
  unfold buildFinalArgs.
  rewrite applyConfigOptions_fragment, applyArgBuilders_fragments.
  by rewrite <- !app_assoc.
Qed.

Lemma optionFragment_same agentConfig (o o' : ConfigOption) :
  sameOption o o' → optionFragment agentConfig o = optionFragment agentConfig o'.
Proof.
  intros (Hk & Hd & Hb). unfold optionFragment, storedOrDefault.
  rewrite <- Hk, <- Hd.
  destruct (argBuilder o) as [b|], (argBuilder o') as [b'|]; try done.
Qed.

Lemma flat_map_same agentConfig (os os' : list ConfigOption) :
  Forall2 sameOption os os' →
  flat_map (optionFragment agentConfig) os = flat_map (optionFragment agentConfig) os'.
Proof.
  induction 1 as [|o o' os os' Ho _ IH]; simpl; [done|].
  by rewrite IH, (optionFragment_same _ o o').
Qed.

(** Descriptors that agree on every call give the same argv. *)
Lemma buildFinalArgs_same agent agent' configs config :
  sameDescriptor agent agent' →
  buildFinalArgs (Some agent') configs config = buildFinalArgs (Some agent) configs config.
Proof.
  intros (Hb & Hj & Hr & Ho & Hm & Hc).
  rewrite !buildFinalArgs_closed.
  assert (batchFragment agent' config = batchFragment agent config) as ->.
  { unfold batchFragment. by rewrite Hb. }
  assert (jsonFragment agent' config = jsonFragment agent config) as ->.
  { unfold jsonFragment, assembled, batchFragment. by rewrite Hb, Hj. }
  assert (resumeFragment agent' config = resumeFragment agent config) as ->.
  { unfold resumeFragment, sameGenerator in *.
    destruct (agentSessionId config), (resumeArgs agent), (resumeArgs agent'); try done.
    by rewrite Hr. }
  assert (readOnlyFragment agent' config = readOnlyFragment agent config) as ->.
  { unfold readOnlyFragment. by rewrite Ho. }
  assert (modelFragment agent' config = modelFragment agent config) as ->.
  { unfold modelFragment, sameGenerator in *.
    destruct (modelId config), (modelArgs agent), (modelArgs agent'); try done.
    by rewrite Hm. }
  assert (configFragment agent' configs config = configFragment agent configs config) as ->.
  { unfold configFragment.
    destruct (configOptions agent), (configOptions agent'); try done.
    symmetry. by apply flat_map_same. }
  done.
Qed.

(** C1: the argv of a spawn request is the batch-mode prefix (present when
    the descriptor declares one and the prompt is non-empty), then the base
    args, then the JSON-output flags, then the resume, read-only, model and
    user-config fragments, in this order; and descriptors that answer every
    call alike, under the same stored config and request, give the same
    argv. *)
Theorem buildFinalArgs_fixed_order (agent : AgentConfig) (configs : AgentConfigsData)
    (config : SpawnConfig) :
  buildFinalArgs (Some agent) configs config
  = batchFragment agent config ++ config.(args) ++ jsonFragment agent config
    ++ resumeFragment agent config ++ readOnlyFragment agent config
    ++ modelFragment agent config ++ configFragment agent configs config
  ∧ ∀ agent', sameDescriptor agent agent' →
      buildFinalArgs (Some agent') configs config
      = buildFinalArgs (Some agent) configs config.
Proof.
  split; [apply buildFinalArgs_closed|].
  intros agent' Hsame. by apply buildFinalArgs_same.
Qed.

Lemma buildFinalArgs_fixed_order_witness :
  buildFinalArgs (Some sampleAgent) ∅ sampleConfig
  = ["run"; "--verbose"; "--format"; "json"; "--resume"; "abc123";
     "--agent"; "plan"; "--model"; "big"; "--context"; "200k"]
  ∧ buildFinalArgs (Some sampleAgentBis) ∅ sampleConfig
    = buildFinalArgs (Some sampleAgent) ∅ sampleConfig.
Proof.
  destruct (buildFinalArgs_fixed_order sampleAgent ∅ sampleConfig) as [Hord Hdet].
  split.
  - rewrite Hord. vm_compute. reflexivity.
  - apply Hdet. repeat split; simpl; try done.
    repeat constructor; simpl; done.
Defined.

(** Off the inherited names the handler resolves an option as the
    specification says for a request without an override. *)
Lemma resolveValue_claimed (agentConfig : gmap string JsValue) (o : ConfigOption) :
  inheritedProp o.(key) = JUndefined →
  resolveValue agentConfig o = claimedValue agentConfig o.
Proof.
  intros Hown. unfold resolveValue, claimedValue, configLookup.
  destruct (agentConfig !! key o) as [v|]; [by destruct v|]. by rewrite Hown.
Qed.


Lemma occurrences_app tok (l1 l2 : list string) :
  occurrences tok (l1 ++ l2) = occurrences tok l1 + occurrences tok l2.
Proof. unfold occurrences. by rewrite filter_app, length_app. Qed.

Lemma occurrences_absent tok (l : list string) :
  Forall (fun arg => arg ≠ tok) l → occurrences tok l = 0.
Proof.
  unfold occurrences. induction 1 as [|x l Hx _ IH]; [done|].
  by rewrite filter_cons_False.
Qed.

Lemma occurrences_NoDup tok (l : list string) :
  NoDup l → tok ∈ l → occurrences tok l = 1.
Proof.
  induction 1 as [|x l Hx Hnd IH]; intros Hin; [by apply elem_of_nil in Hin|].
  change (x :: l) with ([x] ++ l). rewrite occurrences_app.
  destruct (decide (x = tok)) as [->|Hne].
  - rewrite (occurrences_absent tok l).
    + unfold occurrences. by rewrite filter_cons_True.
    + apply Forall_forall. intros y Hy ->. done.
  - apply elem_of_cons in Hin as [->|Hin]; [done|].
    rewrite IH by done. unfold occurrences. by rewrite filter_cons_False.
Qed.

Lemma not_member_absent (json l : list string) tok :
  tok ∈ json → Forall (fun arg => arg ∉ json) l → Forall (fun arg => arg ≠ tok) l.
Proof.
  intros Htok Hall. eapply Forall_impl; [exact Hall|].
  intros arg Harg ->. done.
Qed.

(** C5 as worded fails: the flags can occur twice.  Nothing in the base
    args is a JSON-output flag, so the flags are appended; the
    [outputFormat] option then builds the same two tokens again. *)
Lemma json_flags_twice :
  jsonOutputArgs formatAgent = Some ["--format"; "json"]
  ∧ buildFinalArgs (Some formatAgent) ∅ plainConfig
    = ["--format"; "json"; "--format"; "json"]
  ∧ occurrences "--format" (buildFinalArgs (Some formatAgent) ∅ plainConfig) = 2
  ∧ occurrences "json" (buildFinalArgs (Some formatAgent) ∅ plainConfig) = 2.
Proof. by vm_compute. Qed.

(** C5, amended: the JSON-output flags are appended unless one of them
    already occurs, at any position, among the args assembled so far (the
    batch-mode prefix, when applied, followed by the base args); the test is
    membership.  Fragments appended later are not looked at: when the flags
    are pairwise distinct and neither the assembled args nor the later
    fragments contain one, each flag occurs exactly once in the argv. *)
Theorem json_flags_membership (agent : AgentConfig) (configs : AgentConfigsData)
    (config : SpawnConfig) (json : list string) :
  agent.(jsonOutputArgs) = Some json →
  (Forall (fun arg => arg ∉ json) (assembled agent config)
   ∧ buildFinalArgs (Some agent) configs config
     = assembled agent config ++ json ++ laterFragments agent configs config
   ∨ Exists (fun arg => arg ∈ json) (assembled agent config)
     ∧ buildFinalArgs (Some agent) configs config
       = assembled agent config ++ laterFragments agent configs config)
  ∧ (NoDup json →
     Forall (fun arg => arg ∉ json) (assembled agent config) →
     Forall (fun arg => arg ∉ json) (laterFragments agent configs config) →
     ∀ flag, flag ∈ json →
       occurrences flag (buildFinalArgs (Some agent) configs config) = 1).
Proof.
  intros Hjson.
  assert (Hcases :
    Forall (fun arg => arg ∉ json) (assembled agent config)
    ∧ buildFinalArgs (Some agent) configs config
      = assembled agent config ++ json ++ laterFragments agent configs config
    ∨ Exists (fun arg => arg ∈ json) (assembled agent config)
      ∧ buildFinalArgs (Some agent) configs config
        = assembled agent config ++ laterFragments agent configs config).
  { rewrite buildFinalArgs_closed. unfold laterFragments, assembled at 2 4.
    unfold jsonFragment. rewrite Hjson. rewrite <- !app_assoc.
    case_bool_decide as Hex.
    - right. by split.
    - left. split; [|done]. by apply not_Exists_Forall in Hex; [|apply _]. }
  split; [exact Hcases|].
  intros Hnd Hpre Hpost flag Hflag.
  destruct Hcases as [[_ ->] | [Hex _]].
  - rewrite !occurrences_app.
    rewrite (occurrences_absent flag (assembled agent config))
      by (by eapply not_member_absent).
    rewrite (occurrences_absent flag (laterFragments agent configs config))
      by (by eapply not_member_absent).
    rewrite (occurrences_NoDup flag json) by done. done.
  - exfalso. apply Exists_exists in Hex as (x & Hx & Hin).
    rewrite Forall_forall in Hpre. by apply (Hpre x).
Qed.

Lemma json_flags_membership_witness :
  buildFinalArgs (Some sampleAgent) ∅ formattedConfig
  = ["run"; "--verbose"; "--print-logs"; "--format"; "json"; "--context"; "200k"]
  ∧ occurrences "--format" (buildFinalArgs (Some sampleAgent) ∅ sampleConfig) = 1.
Proof.
  split.
  - destruct (json_flags_membership sampleAgent ∅ formattedConfig _ eq_refl)
      as [[[Hnone _] | [_ Hargv]] _].
    + exfalso. revert Hnone. apply (bool_decide_unpack _). vm_compute. exact I.
    + rewrite Hargv. vm_compute. reflexivity.
  - destruct (json_flags_membership sampleAgent ∅ sampleConfig _ eq_refl)
      as [_ Honce].
    apply Honce.
    + apply (bool_decide_unpack _). vm_compute. exact I.
    + apply (bool_decide_unpack _). vm_compute. exact I.
    + apply (bool_decide_unpack _). vm_compute. exact I.
    + apply (bool_decide_unpack _). vm_compute. exact I.
Defined.

(** C6: with resume token ["abc123"] and a resume generator answering
    [["--resume"; "abc123"]], the argv holds exactly that fragment right
    after the (prefixed) base args and the JSON-output flags, followed by
    the read-only, model and user-config fragments. *)
Theorem resume_fragment_position (agent : AgentConfig) (configs : AgentConfigsData)
    (config : SpawnConfig) (gen : string -> list string) :
  config.(agentSessionId) = Some "abc123" →
  agent.(resumeArgs) = Some gen →
  gen "abc123" = ["--resume"; "abc123"] →
  buildFinalArgs (Some agent) configs config
  = (batchFragment agent config ++ config.(args) ++ jsonFragment agent config)
    ++ ["--resume"; "abc123"]
    ++ (readOnlyFragment agent config ++ modelFragment agent config
        ++ configFragment agent configs config).
Proof.
  intros Hsid Hgen Hfrag. rewrite buildFinalArgs_closed.
  unfold resumeFragment. rewrite Hsid, Hgen, Hfrag. simpl.
  by rewrite <- !app_assoc.
Qed.

Lemma resume_fragment_position_witness :
  buildFinalArgs (Some sampleAgent) ∅ sampleConfig
  = ["run"; "--verbose"; "--format"; "json"] ++ ["--resume"; "abc123"]
    ++ ["--agent"; "plan"; "--model"; "big"; "--context"; "200k"].
Proof.
  rewrite (resume_fragment_position sampleAgent ∅ sampleConfig
             (fun sid => ["--resume"; sid]) eq_refl eq_refl eq_refl).
  vm_compute. reflexivity.
Defined.

(** C10: a request without a shell (absent, or empty, which the handler
    treats alike) gets the stored [defaultShell], or [zsh] when nothing is
    stored, exactly when its tool type is [terminal]; for every other tool
    type the shell stays unset. *)
Theorem default_shell_only_for_terminal (settings : MaestroSettings)
    (config : SpawnConfig) :
  config.(shell) = None ∨ config.(shell) = Some "" →
  (config.(toolType) = "terminal" →
   shellToUse settings config
   = Some (match settings !! "defaultShell" with Some sh => sh | None => "zsh" end))
  ∧ (config.(toolType) ≠ "terminal" → shellToUse settings config = None)
  ∧ (is_Some (shellToUse settings config) ↔ config.(toolType) = "terminal").
Proof.
  intros Hshell.
  assert (Hfalsy : truthyStr (shell config) = false)
    by (destruct Hshell as [-> | ->]; reflexivity).
  unfold shellToUse, storeGet. rewrite Hfalsy.
  destruct (String.eqb_spec (toolType config) "terminal") as [Ht | Ht].
  - split; [|split].
    + intros _. by destruct (settings !! "defaultShell").
    + intros Hne. by destruct Hne.
    + split; [done | eauto].
  - split; [|split].
    + intros Heq. by destruct Ht.
    + done.
    + split; [intros [sh Hsh]; discriminate | intros Heq; by destruct Ht].
Qed.

Lemma default_shell_only_for_terminal_witness :
  shellToUse {[ "defaultShell" := "fish" ]} terminalConfig = Some "fish"
  ∧ shellToUse ∅ terminalConfig = Some "zsh"
  ∧ shellToUse {[ "defaultShell" := "fish" ]} plainConfig = None.
Proof.
  split; [|split].
  - destruct (default_shell_only_for_terminal {[ "defaultShell" := "fish" ]}
                terminalConfig (or_introl eq_refl)) as (Hterm & _ & _).
    rewrite (Hterm eq_refl). vm_compute. reflexivity.
  - destruct (default_shell_only_for_terminal ∅ terminalConfig (or_introl eq_refl))
      as (Hterm & _ & _).
    rewrite (Hterm eq_refl). vm_compute. reflexivity.
  - destruct (default_shell_only_for_terminal {[ "defaultShell" := "fish" ]}
                plainConfig (or_introl eq_refl)) as (_ & Hother & _).
    apply Hother. discriminate.
Defined.

End ProcessFacts.

(** * Properties of the ACP adapter *)

Module AcpFacts.
Import Acp AcpSpec.

Lemma map_copyEntry (es : list PlanEntry) : map copyEntry es = es.
Proof.
  induction es as [|[c p st] es IH]; simpl; [done|]. by rewrite IH.
Qed.

Lemma mapToolStatus_unknown (s : string) :
  s ∉ knownStatuses → mapToolStatus (Some s) = "pending".
Proof.
  intros Hs. unfold mapToolStatus.
  repeat match goal with
  | |- context [String.eqb s ?lit] =>
      destruct (String.eqb_spec s lit) as [->|_];
      [exfalso; apply Hs; unfold knownStatuses; set_solver|]
  end.
  reflexivity.
Qed.

Lemma mapToolStatus_range (st : option string) :
  mapToolStatus st ∈ ["pending"; "running"; "completed"; "error"].
Proof.
  unfold mapToolStatus. destruct st as [s|]; [|set_solver].
  repeat match goal with
  | |- context [String.eqb s ?lit] => destruct (String.eqb s lit)
  end; set_solver.
Qed.

(** C4: the status of a tool call goes through the table pending to
    pending, in_progress to running, completed to completed, failed to
    error; every other string and an absent status give pending.  The map
    is a total function, and it is the status both tool-call events carry. *)
Theorem mapToolStatus_table :
  mapToolStatus (Some "pending") = "pending"
  ∧ mapToolStatus (Some "in_progress") = "running"
  ∧ mapToolStatus (Some "completed") = "completed"
  ∧ mapToolStatus (Some "failed") = "error"
  ∧ mapToolStatus None = "pending"
  ∧ (∀ s, s ∉ knownStatuses → mapToolStatus (Some s) = "pending")
  ∧ (∀ st, mapToolStatus st ∈ ["pending"; "running"; "completed"; "error"])
  ∧ (∀ sid tc,
       eventStatus <$> acpUpdateToParseEvent sid (updateOf (ToolCallStart tc))
       = Some (Some (mapToolStatus tc.(status))))
  ∧ (∀ sid tc,
       eventStatus <$> acpUpdateToParseEvent sid (updateOf (ToolCallChange tc))
       = Some (Some (mapToolStatus tc.(u_status)))).
Proof.
  repeat split; try reflexivity.
  - apply mapToolStatus_unknown.
  - apply mapToolStatus_range.
Qed.

Lemma mapToolStatus_table_witness :
  mapToolStatus (Some "cancelled") = "pending"
  ∧ eventStatus <$> acpUpdateToParseEvent "s1"
                      (updateOf (ToolCallChange (sampleToolUpdate (Some "completed"))))
    = Some (Some "completed").
Proof.
  destruct mapToolStatus_table as (_ & _ & _ & _ & _ & Hother & _ & _ & Hupd).
  split.
  - apply Hother. apply (bool_decide_unpack _). vm_compute. exact I.
  - rewrite Hupd. vm_compute. reflexivity.
Defined.

(** C8: a block with a [text] key yields its text as it is; without one, an
    image yields [[image]], a resource link [[resource: <name>]], an
    embedded resource its text when it has one and [[binary resource]]
    otherwise.  None of the placeholders depends on the binary payload. *)
Theorem extractText_placeholders :
  (∀ b t, b.(cb_text) = Some t → extractText b = t.(text))
  ∧ (∀ b i, b.(cb_text) = None → b.(cb_image) = Some i → extractText b = "[image]")
  ∧ (∀ b l, b.(cb_text) = None → b.(cb_image) = None →
            b.(cb_resource_link) = Some l →
            extractText b = "[resource: " +:+ l.(name) +:+ "]")
  ∧ (∀ b r t, b.(cb_text) = None → b.(cb_image) = None →
              b.(cb_resource_link) = None → b.(cb_resource) = Some r →
              r.(resource).(res_text) = Some t → extractText b = t)
  ∧ (∀ b r, b.(cb_text) = None → b.(cb_image) = None →
            b.(cb_resource_link) = None → b.(cb_resource) = Some r →
            r.(resource).(res_text) = None → extractText b = "[binary resource]").
Proof.
  unfold extractText. repeat split.
  - by intros b t ->.
  - by intros b i -> ->.
  - by intros b l -> -> ->.
  - by intros b r t -> -> -> -> ->.
  - by intros b r -> -> -> -> ->.
Qed.

Lemma extractText_placeholders_witness :
  extractText (textBlock {| text := "plain words" |}) = "plain words"
  ∧ extractText (imageBlock sampleImage) = "[image]"
  ∧ extractText (resourceLinkBlock sampleLink) = "[resource: notes.md]"
  ∧ extractText (resourceBlock sampleTextResource) = "hello"
  ∧ extractText (resourceBlock sampleBlob) = "[binary resource]".
Proof.
  destruct extractText_placeholders as (Htext & Himg & Hlink & Hres & Hbin).
  split; [|split; [|split; [|split]]].
  - apply (Htext (textBlock {| text := "plain words" |}) _ eq_refl).
  - apply (Himg (imageBlock sampleImage) sampleImage eq_refl eq_refl).
  - apply (Hlink (resourceLinkBlock sampleLink) sampleLink eq_refl eq_refl eq_refl).
  - apply (Hres (resourceBlock sampleTextResource) sampleTextResource "hello"
             eq_refl eq_refl eq_refl eq_refl eq_refl).
  - apply (Hbin (resourceBlock sampleBlob) sampleBlob
             eq_refl eq_refl eq_refl eq_refl eq_refl).
Defined.

(** C2 as worded fails: a mode-change notification is one of the listed
    kinds, and it yields no event. *)
Lemma mode_change_yields_no_event :
  acpUpdateToParseEvent "s1" (updateOf (CurrentMode {| currentModeId := "plan" |}))
  = None.
Proof. reflexivity. Qed.

(** C2, amended: agent text chunk, agent reasoning chunk, plan and
    available-commands each map to a variant of their own (text, thinking,
    plan, init), tool-call start and tool-call update both map to the
    tool-use variant, and no two of these kinds share a variant otherwise;
    the echo of the user's message, a mode change, and an unrecognized
    update yield no event. *)
Theorem acpUpdateToParseEvent_kinds (sid : string) :
  (∀ c, acpUpdateToParseEvent sid (updateOf (AgentMessageChunk c))
        = Some (EvText (extractText c.(content)) true sid))
  ∧ (∀ c, acpUpdateToParseEvent sid (updateOf (AgentThoughtChunk c))
          = Some (EvThinking (extractText c.(content)) true sid))
  ∧ (∀ tc, acpUpdateToParseEvent sid (updateOf (ToolCallStart tc))
           = Some (EvToolUse tc.(title) tc.(rawInput) None tc.(toolCallId)
                     (mapToolStatus tc.(status)) sid))
  ∧ (∀ tc, acpUpdateToParseEvent sid (updateOf (ToolCallChange tc))
           = Some (EvToolUse (match tc.(u_title) with Some t => t | None => "" end)
                     tc.(u_rawInput) (Some tc.(u_rawOutput)) tc.(u_toolCallId)
                     (mapToolStatus tc.(u_status)) sid))
  ∧ (∀ p, acpUpdateToParseEvent sid (updateOf (PlanUpdate p))
          = Some (EvPlan p.(entries) sid))
  ∧ (∀ a, acpUpdateToParseEvent sid (updateOf (AvailableCommands a))
          = Some (EvInit (map cmd_name a.(availableCommands)) sid))
  ∧ (∀ c, acpUpdateToParseEvent sid (updateOf (UserMessageChunk c)) = None)
  ∧ (∀ m, acpUpdateToParseEvent sid (updateOf (CurrentMode m)) = None)
  ∧ (∀ props, acpUpdateToParseEvent sid (updateOf (Unrecognized props)) = None)
  ∧ (∀ k, eventType <$> acpUpdateToParseEvent sid (updateOf k) = variantOf k)
  ∧ (∀ k k' v, variantOf k = Some v → variantOf k' = Some v →
               kindName k = kindName k' ∨ (isToolCall k = true ∧ isToolCall k' = true)).
Proof.
  repeat split; try reflexivity.
  - intros tc. unfold acpUpdateToParseEvent, orEmpty. simpl.
    destruct (u_title tc) as [t|]; simpl; [|done].
    destruct (String.eqb_spec t "") as [->|_]; done.
  - intros p. unfold acpUpdateToParseEvent. simpl. by rewrite map_copyEntry.
  - by intros [].
  - intros k k' v Hk Hk'.
    destruct k; simpl in Hk; try discriminate;
      destruct k'; simpl in Hk'; try discriminate;
      simplify_eq; auto.
Qed.

Lemma acpUpdateToParseEvent_kinds_witness :
  kindName (PlanUpdate {| entries := [] |})
  = kindName (PlanUpdate {| entries := [] |})
  ∨ (isToolCall (PlanUpdate {| entries := [] |}) = true
     ∧ isToolCall (PlanUpdate {| entries := [] |}) = true).
Proof.
  destruct (acpUpdateToParseEvent_kinds "s1")
    as (_ & _ & _ & _ & _ & _ & _ & _ & _ & _ & Hinj).
  apply (Hinj (PlanUpdate {| entries := [] |}) (PlanUpdate {| entries := [] |}) "plan");
    reflexivity.
Defined.

End AcpFacts.

(** * Properties of the stream-json extraction *)

Module WizardFacts.
Import Wizard WizardSpec Samples.

Example split_sample :
  split ("a" +:+ String newline ("b" +:+ String newline "")) = ["a"; "b"; ""].
Proof. reflexivity. Qed.

Example trim_sample : trim (String "009" "  a b  ") = "a b".
Proof. reflexivity. Qed.

Example null_line_is_skipped :
  extractResultFromStreamJson sampleParse "null" = None.
Proof. reflexivity. Qed.

Lemma trimEnd_nonblank_head c rest :
  isWhiteSpace c = false → trimEnd (String c rest) ≠ EmptyString.
Proof.
  intros Hc. simpl. destruct (trimEnd rest); [by rewrite Hc | done].
Qed.

Lemma trimStart_blank (s : string) :
  trimStart s = EmptyString ↔ isBlank s = true.
Proof.
  unfold isBlank. induction s as [|c s IH]; simpl; [done|].
  destruct (isWhiteSpace c) eqn:Hc; simpl; [exact IH|].
  split; discriminate.
Qed.

Lemma trimStart_shape (s : string) :
  trimStart s = EmptyString
  ∨ ∃ c rest, trimStart s = String c rest ∧ isWhiteSpace c = false.
Proof.
  induction s as [|c s IH]; simpl; [by left|].
  destruct (isWhiteSpace c) eqn:Hc; [exact IH|]. right. eauto.
Qed.

(** [trim] leaves nothing exactly of the lines made of white space. *)
Lemma trim_blank (s : string) :
  negb (truthy (JStr (trim s))) = isBlank s.
Proof.
  simpl. rewrite negb_involutive. unfold trim.
  destruct (trimStart_shape s) as [He | (c & rest & He & Hc)].
  - rewrite He. simpl. symmetry. by apply trimStart_blank.
  - rewrite He. pose proof (trimEnd_nonblank_head c rest Hc) as Hne.
    destruct (String.eqb_spec (trimEnd (String c rest)) "") as [Heq|_]; [done|].
    symmetry. apply not_true_is_false. intros Hb.
    apply trimStart_blank in Hb. congruence.
Qed.

Lemma getProp_obj props k :
  getProp (JObj props) k = Normal (option.default JUndefined (lookupProp props k)).
Proof. reflexivity. Qed.

(** The inner [try]/[catch] around one line yields what the record carries. *)
Lemma tryCatch_lineBody JSON_parse (line : string) :
  tryCatch (lineBody JSON_parse line)
  = match JSON_parse line with
    | Some msg => resultOf msg
    | None => None
    end.
Proof.
  unfold lineBody, parse. destruct (JSON_parse line) as [msg|]; [|done].
  destruct msg as [| |b|x|str|items|props|name]; try done. simpl bind.
  unfold resultOf. fold (lookupProp props "type"). fold (lookupProp props "result").
  destruct (lookupProp props "type") as [[| |b|x|ty|items|props'|name]|]; simpl; try done.
  destruct (String.eqb ty "result"); [|done].
  destruct (lookupProp props "result") as [r|]; simpl; [|done].
  by destruct (truthy r).
Qed.

Lemma scanLines_head JSON_parse (lines : list string) :
  scanLines JSON_parse lines = head (omap (lineResult JSON_parse) lines).
Proof.
  induction lines as [|line rest IH]; [done|].
  cbn [scanLines omap list_omap]. rewrite trim_blank, tryCatch_lineBody.
  unfold lineResult at 1. destruct (isBlank line); [exact IH|].
  destruct (JSON_parse line) as [msg|]; [|exact IH].
  destruct (resultOf msg); [done | exact IH].
Qed.

Lemma hasNewline_cons c (l : string) :
  hasNewline (String c l) = false →
  Ascii.eqb c newline = false ∧ hasNewline l = false.
Proof.
  unfold hasNewline. simpl. intros H. apply orb_false_iff in H as [Hc Hl].
  split; [|done]. by rewrite Ascii.eqb_sym.
Qed.

Lemma split_line (l rest : string) :
  hasNewline l = false →
  split (l +:+ String newline rest) = l :: split rest.
Proof.
  induction l as [|c l IH]; intros Hl; [done|].
  apply hasNewline_cons in Hl as [Hc Hl].
  simpl. rewrite Hc. change (append l (String newline rest)) with (l +:+ String newline rest).
  by rewrite IH.
Qed.

Lemma split_single (l : string) : hasNewline l = false → split l = [l].
Proof.
  induction l as [|c l IH]; intros Hl; [done|].
  apply hasNewline_cons in Hl as [Hc Hl].
  simpl. rewrite Hc. by rewrite IH.
Qed.

(** Splitting undoes joining. *)
Lemma split_join (line : string) (rest : list string) :
  Forall (fun l => hasNewline l = false) (line :: rest) →
  split (join (line :: rest)) = line :: rest.
Proof.
  revert line. induction rest as [|next rest IH]; intros line Hall.
  - apply split_single. by apply Forall_inv in Hall.
  - apply Forall_cons in Hall as [Hline Hrest].
    change (join (line :: next :: rest))
      with (line +:+ String newline (join (next :: rest))).
    rewrite split_line by done. by rewrite IH.
Qed.

Lemma extract_join JSON_parse (lines : list string) :
  Forall (fun l => hasNewline l = false) lines →
  extractResultFromStreamJson JSON_parse (join lines)
  = head (omap (lineResult JSON_parse) lines).
Proof.
  intros Hall. unfold extractResultFromStreamJson, tryCatch.
  destruct lines as [|line rest]; [done|].
  by rewrite split_join, scanLines_head.
Qed.

Lemma omap_filter_parses JSON_parse (lines : list string) :
  omap (lineResult JSON_parse) (filter (fun l => parses JSON_parse l = true) lines)
  = omap (lineResult JSON_parse) lines.
Proof.
  induction lines as [|line rest IH]; [done|].
  destruct (parses JSON_parse line) eqn:Hp.
  - rewrite filter_cons_True by done. cbn [omap list_omap]. by rewrite IH.
  - rewrite filter_cons_False by (by rewrite Hp). cbn [omap list_omap].
    rewrite IH. unfold lineResult at 2. unfold parses in Hp.
    destruct (JSON_parse line); [done|]. by destruct (isBlank line).
Qed.

(** C7: whatever [JSON.parse] accepts, the lines of a stream are tried one
    by one, in order: the answer is the result of the first line that is
    not blank, parses, and carries a result.  A line that does not parse
    gives nothing and raises nothing, and the answer is the one the stream
    would give with all such lines taken out. *)
Theorem extractResultFromStreamJson_per_line
    (JSON_parse : string -> option JsValue) (lines : list string) :
  Forall (fun l => hasNewline l = false) lines →
  extractResultFromStreamJson JSON_parse (join lines)
  = head (omap (lineResult JSON_parse) lines)
  ∧ (∀ line, JSON_parse line = None →
             tryCatch (lineBody JSON_parse line) = None
             ∧ lineResult JSON_parse line = None)
  ∧ extractResultFromStreamJson JSON_parse (join lines)
    = extractResultFromStreamJson JSON_parse
        (join (filter (fun l => parses JSON_parse l = true) lines)).
Proof.
  intros Hall. split; [by apply extract_join|]. split.
  - intros line Hnone. rewrite tryCatch_lineBody. unfold lineResult.
    rewrite Hnone. by destruct (isBlank line).
  - rewrite !extract_join.
    + by rewrite omap_filter_parses.
    + apply Forall_forall. intros l Hl. apply list_elem_of_filter in Hl as [_ Hl].
      rewrite Forall_forall in Hall. by apply Hall.
    + done.
Qed.

Lemma extractResultFromStreamJson_per_line_witness :
  extractResultFromStreamJson sampleParse (join sampleStream) = Some (JStr "done")
  ∧ extractResultFromStreamJson sampleParse (join [systemLine; "null"; resultLine])
    = Some (JStr "done").
Proof.
  assert (Hall : Forall (fun l => hasNewline l = false) sampleStream).
  { apply (bool_decide_unpack _). vm_compute. exact I. }
  destruct (extractResultFromStreamJson_per_line sampleParse sampleStream Hall)
    as (Hfirst & _ & Hfiltered).
  split.
  - rewrite Hfirst. vm_compute. reflexivity.
  - rewrite Hfiltered in Hfirst.
    transitivity (head (omap (lineResult sampleParse) sampleStream)).
    + rewrite <- Hfirst. vm_compute. reflexivity.
    + vm_compute. reflexivity.
Defined.

End WizardFacts.

(** * Properties of [kill] *)

Module RegistryFacts.
Import Registry RegistrySpec Samples.

Lemma liveHandle_none reg sid role :
  unknownOrExited reg sid → liveHandle reg sid role = None.
Proof.
  intros H. specialize (H role). unfold liveHandle, isLive.
  destruct (reg !! (sid, role)) as [h|]; [|done]. by rewrite H.
Qed.

Lemma unknownOrExited_after_exit reg sid :
  unknownOrExited (exitsObserved sid reg) sid.
Proof.
  intros role. unfold exitsObserved, onExit.
  destruct role.
  - by rewrite lookup_delete_ne, lookup_delete_eq.
  - by rewrite lookup_delete_eq.
Qed.

Lemma kill_notFound reg sid :
  unknownOrExited reg sid → kill sid reg = notFound reg.
Proof.
  intros H. unfold kill, notFound. cbn [omap list_omap].
  by rewrite !(liveHandle_none reg sid) by done.
Qed.

(** C9: for a session that has no handle in the registry, or only exited
    ones, [kill] answers false, signals no process and leaves the registry
    as it is; [kill] never changes the registry itself, so other sessions
    keep their handles; and once the exits of a killed session have been
    observed, killing it again is such a not-found answer. *)
Theorem kill_unknown_or_exited (reg : gmap (string * Role) ProcessHandle)
    (sessionId : string) :
  (unknownOrExited reg sessionId → kill sessionId reg = notFound reg)
  ∧ ((∀ role, reg !! (sessionId, role) = None) → kill sessionId reg = notFound reg)
  ∧ (kill sessionId reg).(registry) = reg
  ∧ (∀ other role, other ≠ sessionId →
       exitsObserved sessionId (kill sessionId reg).(registry) !! (other, role)
       = reg !! (other, role))
  ∧ kill sessionId (exitsObserved sessionId (kill sessionId reg).(registry))
    = notFound (exitsObserved sessionId reg).
Proof.
  split; [apply kill_notFound|]. split; [|split; [done|split]].
  - intros Hnone. apply kill_notFound. intros role. by rewrite Hnone.
  - intros other role Hne. simpl. unfold exitsObserved, onExit.
    rewrite !lookup_delete_ne by congruence. done.
  - simpl. apply kill_notFound, unknownOrExited_after_exit.
Qed.

Lemma kill_unknown_or_exited_witness :
  kill "b" sampleRegistry = notFound sampleRegistry
  ∧ kill "ghost" sampleRegistry = notFound sampleRegistry
  ∧ (kill "a" sampleRegistry).(signalled) = [101; 102]
  ∧ (kill "a" sampleRegistry).(found) = true
  ∧ exitsObserved "a" (kill "a" sampleRegistry).(registry) !! ("b", ai) = Some deadAi.
Proof.
  split; [|split; [|split; [|split]]].
  - destruct (kill_unknown_or_exited sampleRegistry "b") as (Hexited & _).
    apply Hexited. by intros [].
  - destruct (kill_unknown_or_exited sampleRegistry "ghost") as (_ & Hunknown & _).
    apply Hunknown. by intros [].
  - vm_compute. reflexivity.
  - vm_compute. reflexivity.
  - destruct (kill_unknown_or_exited sampleRegistry "a") as (_ & _ & _ & Hother & _).
    rewrite (Hother "b" ai) by discriminate. vm_compute. reflexivity.
Defined.

End RegistryFacts.

(** * More on the spawn handler and on [runCommand] *)

Module HandlersFacts.
Import Process ProcessSpec Handlers.

(** X1: once the handler is through, a descriptor that declares at least one
    JSON-output flag has one of its flags in the argv, whatever the base
    args were. *)
Theorem json_output_requested (agent : AgentConfig) (configs : AgentConfigsData)
    (config : SpawnConfig) (json : list string) :
  agent.(jsonOutputArgs) = Some json →
  json ≠ [] →
  Exists (fun arg => arg ∈ json) (buildFinalArgs (Some agent) configs config).
Proof.
  intros Hjson Hne. rewrite ProcessFacts.buildFinalArgs_closed.
  rewrite (app_assoc (batchFragment agent config)).
  fold (assembled agent config).
  unfold jsonFragment. rewrite Hjson. case_bool_decide as Hex.
  - apply Exists_app. by left.
  - apply Exists_app. right. apply Exists_app. left.
    destruct json as [|flag json']; [done|].
    apply Exists_cons_hd. by left.
Qed.

Lemma json_output_requested_witness :
  Exists (fun arg => arg ∈ ["--format"; "json"])
    (buildFinalArgs (Some sampleAgent) ∅ formattedConfig).
Proof.
  apply (json_output_requested sampleAgent ∅ formattedConfig ["--format"; "json"]).
  - reflexivity.
  - discriminate.
Defined.

(** X2: an empty prompt, resume token or model id and a [false] read-only flag
    count as absent: the argv is the one of the request without them. *)
Theorem falsy_options_are_absent (agent : option AgentConfig)
    (configs : AgentConfigsData) (config : SpawnConfig) :
  buildFinalArgs agent configs config
  = buildFinalArgs agent configs
      (withOptions config (presentStr config.(prompt))
         (presentStr config.(agentSessionId))
         (presentFlag config.(readOnlyMode))
         (presentStr config.(modelId))).
Proof.
  destruct agent as [agent|]; [|done].
  rewrite !ProcessFacts.buildFinalArgs_closed.
  set (config' := withOptions _ _ _ _ _).
  assert (batchFragment agent config' = batchFragment agent config) as Hb.
  { unfold batchFragment, config', withOptions, presentStr. cbn [prompt].
    destruct (batchModePrefix agent); [|done].
    destruct (prompt config) as [p|]; [|done]. simpl.
    destruct (String.eqb p "") eqn:Hp; simpl; [done | by rewrite Hp]. }
  assert (jsonFragment agent config' = jsonFragment agent config) as ->.
  { unfold jsonFragment, assembled. by rewrite Hb. }
  rewrite Hb.
  assert (resumeFragment agent config' = resumeFragment agent config) as ->.
  { unfold resumeFragment, config', withOptions, presentStr. cbn [agentSessionId].
    destruct (agentSessionId config) as [sid|]; [|done].
    destruct (String.eqb sid "") eqn:Hs; [by destruct (resumeArgs agent)|].
    by rewrite Hs. }
  assert (readOnlyFragment agent config' = readOnlyFragment agent config) as ->.
  { unfold readOnlyFragment, config', withOptions, presentFlag. cbn [readOnlyMode].
    by destruct (readOnlyMode config) as [[]|]. }
  assert (modelFragment agent config' = modelFragment agent config) as ->.
  { unfold modelFragment, config', withOptions, presentStr. cbn [modelId].
    destruct (modelId config) as [m|]; [|done].
    destruct (String.eqb m "") eqn:Hm; [by destruct (modelArgs agent)|].
    by rewrite Hm. }
  reflexivity.
Qed.

Lemma indexOfFrom_absent (l : list string) (x : string) (i : Z) :
  x ∉ l → indexOfFrom l x i = (-1)%Z.
Proof.
  revert i. induction l as [|y l IH]; intros i Hx; [done|].
  simpl. apply not_elem_of_cons in Hx as [Hne Hx].
  destruct (String.eqb_spec y x) as [->|_]; [done|]. by apply IH.
Qed.

Lemma indexOfFrom_first (pre rest : list string) (x : string) (i : Z) :
  x ∉ pre → indexOfFrom (pre ++ x :: rest) x i = (i + Z.of_nat (List.length pre))%Z.
Proof.
  revert i. induction pre as [|y pre IH]; intros i Hx; simpl.
  - rewrite String.eqb_refl. lia.
  - apply not_elem_of_cons in Hx as [Hne Hx].
    destruct (String.eqb_spec y x) as [->|_]; [done|].
    rewrite IH by done. lia.
Qed.

Lemma at_after (pre rest : list string) (x : string) :
  at_ (pre ++ x :: rest) (0 + Z.of_nat (List.length pre) + 1)%Z = head rest.
Proof.
  unfold at_.
  replace (Z.to_nat (0 + Z.of_nat (List.length pre) + 1)) with (List.length pre + 1)%nat by lia.
  rewrite lookup_app_r by lia.
  replace (List.length pre + 1 - List.length pre)%nat with 1%nat by lia.
  by destruct rest.
Qed.

Lemma truthy_present (s : option string) :
  (if truthyStr s then s else None) = presentStr s.
Proof. destruct s as [s|]; [|done]. simpl. by destruct (String.eqb s ""). Qed.

Lemma extractedAgentSessionId_resume (config : SpawnConfig) (pre rest : list string) :
  "--resume" ∉ pre →
  extractedAgentSessionId (pre ++ "--resume" :: rest) config = head rest.
Proof.
  intros Hpre. unfold extractedAgentSessionId, indexOf.
  rewrite indexOfFrom_first by done.
  destruct (Z.eqb_spec (0 + Z.of_nat (List.length pre)) (-1)) as [Heq|_]; [lia|].
  apply at_after.
Qed.

Lemma loggedAgentSessionId_resume (config : SpawnConfig) (pre rest : list string) :
  "--resume" ∉ pre →
  loggedAgentSessionId (pre ++ "--resume" :: rest) config = presentStr (head rest).
Proof.
  intros Hpre. unfold loggedAgentSessionId. cbv zeta.
  rewrite extractedAgentSessionId_resume by done. apply truthy_present.
Qed.

(** X3: the agent session id of the log line is the token after the first
    [--resume]; without a [--resume], the token after the first
    [--session]; without either, the id of the request.  In each case the
    key is left out of the log when that value is missing or empty: a
    [--resume] in last position, or followed by an empty token, logs no id,
    whatever the request says. *)
Theorem logged_session_id_from_argv (config : SpawnConfig) :
  (∀ pre rest, "--resume" ∉ pre →
     loggedAgentSessionId (pre ++ "--resume" :: rest) config = presentStr (head rest))
  ∧ (∀ pre rest, "--resume" ∉ pre ++ "--session" :: rest → "--session" ∉ pre →
       loggedAgentSessionId (pre ++ "--session" :: rest) config
       = presentStr (head rest))
  ∧ (∀ argv, "--resume" ∉ argv → "--session" ∉ argv →
       loggedAgentSessionId argv config = presentStr config.(agentSessionId)).
Proof.
  split; [|split]; [apply loggedAgentSessionId_resume | |];
    unfold loggedAgentSessionId, extractedAgentSessionId, indexOf; cbv zeta.
  - intros pre rest Hres Hpre. rewrite (indexOfFrom_absent _ "--resume") by done.
    rewrite indexOfFrom_first by done. simpl negb at 1 3. cbv iota.
    destruct (Z.eqb_spec (0 + Z.of_nat (List.length pre)) (-1)) as [Heq|_]; [lia|].
    simpl negb. cbv iota. rewrite at_after. apply truthy_present.
  - intros argv Hres Hses. rewrite !indexOfFrom_absent by done.
    simpl negb. cbv iota. apply truthy_present.
Qed.

Lemma logged_session_id_from_argv_witness :
  loggedAgentSessionId ["run"; "--resume"; "abc123"; "--session"; "zzz"] plainConfig
  = Some "abc123"
  ∧ loggedAgentSessionId ["run"; "--session"; "s9"] plainConfig = Some "s9"
  ∧ loggedAgentSessionId ["run"; "--resume"] sampleConfig = None
  ∧ loggedAgentSessionId ["--resume"; ""; "x"] sampleConfig = None
  ∧ loggedAgentSessionId ["run"] sampleConfig = Some "abc123".
Proof.
  destruct (logged_session_id_from_argv plainConfig) as (Hres & Hses & _).
  destruct (logged_session_id_from_argv sampleConfig) as (Hlast & _ & Hnone).
  split; [|split; [|split; [|split]]].
  - apply (Hres ["run"] ["abc123"; "--session"; "zzz"]).
    apply (bool_decide_unpack _). vm_compute. exact I.
  - apply (Hses ["run"] ["s9"]).
    + apply (bool_decide_unpack _). vm_compute. exact I.
    + apply (bool_decide_unpack _). vm_compute. exact I.
  - apply (Hlast ["run"] []).
    apply (bool_decide_unpack _). vm_compute. exact I.
  - apply (Hlast [] [""; "x"]).
    apply (bool_decide_unpack _). vm_compute. exact I.
  - apply (Hnone ["run"]).
    + apply (bool_decide_unpack _). vm_compute. exact I.
    + apply (bool_decide_unpack _). vm_compute. exact I.
Defined.

(** X4: when the descriptor resumes with [--resume <id>] and no token before
    the resume fragment is [--resume], the log line names the resume token
    of the request. *)
Theorem resume_token_is_logged (agent : AgentConfig) (configs : AgentConfigsData)
    (config : SpawnConfig) (gen : string -> list string) (sid : string)
    (more : list string) :
  config.(agentSessionId) = Some sid →
  sid ≠ "" →
  agent.(resumeArgs) = Some gen →
  gen sid = "--resume" :: sid :: more →
  "--resume" ∉ assembled agent config ++ jsonFragment agent config →
  loggedAgentSessionId (buildFinalArgs (Some agent) configs config) config = Some sid.
Proof.
  intros Hsid Hne Hgen Hfrag Hpre.
  rewrite ProcessFacts.buildFinalArgs_closed.
  unfold resumeFragment. rewrite Hsid, Hgen, Hfrag.
  apply String.eqb_neq in Hne. rewrite Hne.
  rewrite (app_assoc (batchFragment agent config)). fold (assembled agent config).
  rewrite (app_assoc (assembled agent config)).
  change (("--resume" :: sid :: more) ++ ?tl) with ("--resume" :: (sid :: more ++ tl)).
  rewrite loggedAgentSessionId_resume by done. simpl. by rewrite Hne.
Qed.

Lemma resume_token_is_logged_witness :
  loggedAgentSessionId (buildFinalArgs (Some sampleAgent) ∅ sampleConfig) sampleConfig
  = Some "abc123".
Proof.
  apply (resume_token_is_logged sampleAgent ∅ sampleConfig
           (fun sid => ["--resume"; sid]) "abc123" []).
  - reflexivity.
  - discriminate.
  - reflexivity.
  - reflexivity.
  - apply (bool_decide_unpack _). vm_compute. exact I.
Defined.

Lemma length_append (a b : string) :
  String.length (a +:+ b) = (String.length a + String.length b)%nat.
Proof. induction a as [|c a IH]; simpl; [done|]. by rewrite IH. Qed.

Lemma length_substring0 (n : nat) (s : string) :
  String.length (substring 0 n s) = Nat.min n (String.length s).
Proof.
  revert s. induction n as [|n IH]; intros [|c s]; simpl; try done.
  by rewrite IH.
Qed.

Lemma prefix_substring0 (n : nat) (s : string) :
  String.prefix (substring 0 n s) s = true.
Proof.
  revert s. induction n as [|n IH]; intros [|c s]; simpl; try done.
  destruct (ascii_dec c c); [apply IH | done].
Qed.

(** X5: the prompt of the log line: left out for a missing or empty prompt,
    the prompt itself up to 500 units, and otherwise its first 500 units
    followed by three dots, 503 units in all. *)
Theorem logged_prompt_bounded (config : SpawnConfig) :
  (truthyStr config.(prompt) = false → loggedPrompt config = None)
  ∧ (∀ p, config.(prompt) = Some p → p ≠ "" →
       ∃ logged, loggedPrompt config = Some logged
         ∧ (String.length logged <= 503)%nat
         ∧ ((String.length p <= 500)%nat → logged = p)
         ∧ ((500 < String.length p)%nat →
            ∃ kept, logged = kept +:+ "..."
                    ∧ String.length kept = 500%nat
                    ∧ String.prefix kept p = true)).
Proof.
  unfold loggedPrompt. split.
  - destruct (prompt config) as [p|]; [|done]. by intros ->.
  - intros p -> Hne. apply String.eqb_neq in Hne. simpl. rewrite Hne. simpl.
    destruct (Nat.ltb_spec 500 (String.length p)) as [Hlong | Hshort].
    + eexists. split; [done|]. split; [|split].
      * rewrite length_append, length_substring0.
        change (String.length "...") with 3%nat. lia.
      * lia.
      * intros _. exists (substring 0 500 p). split; [done|]. split.
        -- rewrite length_substring0. lia.
        -- apply prefix_substring0.
    + eexists. split; [done|]. split; [lia|]. split; [done | lia].
Qed.

Lemma logged_prompt_bounded_witness :
  loggedPrompt sampleConfig = Some "hello" ∧ loggedPrompt plainConfig = None.
Proof.
  split.
  - destruct (logged_prompt_bounded sampleConfig) as [_ Hsome].
    destruct (Hsome "hello" eq_refl ltac:(discriminate))
      as (logged & Hlogged & _ & Hshort & _).
    rewrite Hlogged. f_equal. apply Hshort. simpl. lia.
  - destruct (logged_prompt_bounded plainConfig) as [Hnone _].
    apply Hnone. reflexivity.
Defined.

(** X6: a command run through [runCommand] gets the shell a terminal spawn with
    the same shell setting gets; that shell is the empty string only when
    the stored default shell is. *)
Theorem runCommand_shell_agrees (settings : MaestroSettings) (config : SpawnConfig)
    (rc : RunCommandConfig) :
  (config.(toolType) = "terminal" → config.(shell) = rc.(rc_shell) →
   shellToUse settings config = Some (runCommandShell settings rc))
  ∧ (runCommandShell settings rc = "" → settings !! "defaultShell" = Some "").
Proof.
  unfold shellToUse, runCommandShell, storeGet. split.
  - intros -> ->. destruct (rc_shell rc) as [sh|]; [|done]. simpl.
    by destruct (String.eqb sh "").
  - destruct (rc_shell rc) as [sh|]; simpl.
    + destruct (String.eqb_spec sh "") as [->|Hne]; simpl.
      * destruct (settings !! "defaultShell"); simpl; [by intros ->|done].
      * done.
    + destruct (settings !! "defaultShell"); simpl; [by intros ->|done].
Qed.

Lemma runCommand_shell_agrees_witness :
  shellToUse {[ "defaultShell" := "fish" ]} terminalConfig
  = Some (runCommandShell {[ "defaultShell" := "fish" ]}
            {| rc_sessionId := "s3"; rc_command := "echo hi"; rc_cwd := "/tmp";
               rc_shell := None |})
  ∧ runCommandShell {[ "defaultShell" := "" ]}
      {| rc_sessionId := "s3"; rc_command := "echo hi"; rc_cwd := "/tmp";
         rc_shell := None |} = "".
Proof.
  split.
  - by apply runCommand_shell_agrees.
  - vm_compute. reflexivity.
Defined.

Lemma optionFragment_lookup (ac1 ac2 : gmap string JsValue) (o : ConfigOption) :
  configLookup ac1 o.(key) = configLookup ac2 o.(key) →
  optionFragment ac1 o = optionFragment ac2 o.
Proof.
  intros Heq. unfold optionFragment. destruct (argBuilder o); [|done].
  unfold storedOrDefault. by rewrite Heq.
Qed.

(** X7: for a tool type that is not the name of an inherited property, the
    argv depends on the stored configuration only through what the record
    stored for that tool type answers, own or inherited, under the keys of
    the options that have an argument builder. *)
Theorem stored_config_frame (agent : AgentConfig) (configs1 configs2 : AgentConfigsData)
    (config : SpawnConfig) :
  inheritedProp config.(toolType) = JUndefined →
  (∀ o, o ∈ option.default [] agent.(configOptions) → is_Some o.(argBuilder) →
        configLookup (agentConfigFor configs1 config.(toolType)) o.(key)
        = configLookup (agentConfigFor configs2 config.(toolType)) o.(key)) →
  buildFinalArgs (Some agent) configs1 config
  = buildFinalArgs (Some agent) configs2 config.
Proof.
  intros _ Hsame. rewrite !ProcessFacts.buildFinalArgs_closed.
  do 6 f_equal. unfold configFragment.
  destruct (configOptions agent) as [opts|]; [|done]. simpl in Hsame.
  fold (agentConfigFor configs1 (toolType config)).
  fold (agentConfigFor configs2 (toolType config)).
  induction opts as [|o opts IH]; [done|]. simpl. f_equal.
  - destruct (argBuilder o) as [build|] eqn:Hb.
    + apply optionFragment_lookup, Hsame; [by left | by rewrite Hb].
    + unfold optionFragment. by rewrite Hb.
  - apply IH. intros o' Ho'. apply Hsame. by right.
Qed.

Lemma stored_config_frame_witness :
  buildFinalArgs (Some sampleAgent)
    {[ "claude-code" := {[ "contextWindow" := JStr "1m" ]} ]} plainConfig
  = buildFinalArgs (Some sampleAgent) ∅ plainConfig.
Proof.
  apply stored_config_frame; [reflexivity|].
  intros o _ _. unfold agentConfigFor. vm_compute. reflexivity.
Defined.

End HandlersFacts.

(** * More on the ACP adapter *)

Module AcpMoreFacts.
Import Acp AcpSpec MoreSamples.

(** X8: whatever the update object holds, an event that comes out of the
    adapter carries the session id it was called with and is a text,
    thinking, tool-use, plan or init event, never a session-id, result or
    error event. *)
Theorem adapter_events_keep_session (sid : string) (update : SessionUpdate)
    (e : ParsedEvent) :
  acpUpdateToParseEvent sid update = Some e →
  eventSessionId e = sid
  ∧ eventType e ∈ ["text"; "thinking"; "tool_use"; "plan"; "init"].
Proof.
  unfold acpUpdateToParseEvent.
  destruct (agent_message_chunk update); [intros [= <-]; split; [done|set_solver]|].
  destruct (agent_thought_chunk update); [intros [= <-]; split; [done|set_solver]|].
  destruct (user_message_chunk update); [done|].
  destruct (tool_call update); [intros [= <-]; split; [done|set_solver]|].
  destruct (tool_call_update update); [intros [= <-]; split; [done|set_solver]|].
  destruct (plan update); [intros [= <-]; split; [done|set_solver]|].
  destruct (available_commands_update update); [intros [= <-]; split; [done|set_solver]|].
  by destruct (current_mode_update update).
Qed.

Lemma adapter_events_keep_session_witness :
  eventSessionId
    (EvPlan [{| entry_content := "write tests"; priority := "high";
                entry_status := "pending" |}] "s7") = "s7".
Proof.
  apply (adapter_events_keep_session "s7"
           (updateOf (PlanUpdate
              {| entries := [{| entry_content := "write tests"; priority := "high";
                                entry_status := "pending" |}] |}))).
  reflexivity.
Defined.

(** X9: the keys are tried in a fixed order on any update object: an agent
    message or thought chunk always gives an event; failing those, the echo
    of the user's message silences every key after it; failing that too, an
    event comes out exactly when the object has a tool call, a tool-call
    update, a plan or a list of commands. *)
Theorem adapter_silent_exactly_when (sid : string) (update : SessionUpdate) :
  acpUpdateToParseEvent sid update = None
  ↔ update.(agent_message_chunk) = None
    ∧ update.(agent_thought_chunk) = None
    ∧ (is_Some update.(user_message_chunk)
       ∨ update.(tool_call) = None ∧ update.(tool_call_update) = None
         ∧ update.(plan) = None ∧ update.(available_commands_update) = None).
Proof.
  unfold acpUpdateToParseEvent.
  destruct (agent_message_chunk update); [split; [done | by intros [? _]]|].
  destruct (agent_thought_chunk update); [split; [done | by intros (_ & ? & _)]|].
  destruct (user_message_chunk update); [split; [intros _; eauto | done]|].
  destruct (tool_call update); [split; [done | intros (_ & _ & [[? ?] | (? & _)]); done]|].
  destruct (tool_call_update update);
    [split; [done | intros (_ & _ & [[? ?] | (_ & ? & _)]); done]|].
  destruct (plan update);
    [split; [done | intros (_ & _ & [[? ?] | (_ & _ & ? & _)]); done]|].
  destruct (available_commands_update update);
    [split; [done | intros (_ & _ & [[? ?] | (_ & _ & _ & ?)]); done]|].
  destruct (current_mode_update update); split; try done; intros _; eauto 10.
Qed.

Lemma adapter_silent_exactly_when_witness :
  acpUpdateToParseEvent "s7"
    {| user_message_chunk := Some {| content := textBlock {| text := "echo" |} |};
       agent_message_chunk := None; agent_thought_chunk := None;
       tool_call := None;
       tool_call_update := Some (sampleToolUpdate (Some "completed"));
       plan := None; available_commands_update := None;
       current_mode_update := None; other := [] |} = None.
Proof.
  apply adapter_silent_exactly_when. simpl. split; [done|]. split; [done|].
  left. eauto.
Defined.

(** X10: the statuses are told apart by their image: [running] comes only
    from [in_progress], [completed] only from [completed], [error] only
    from [failed], and [pending] from every other input, the absent status
    included; nothing else comes out. *)
Theorem mapToolStatus_inverse (st : option string) :
  (mapToolStatus st = "running" ↔ st = Some "in_progress")
  ∧ (mapToolStatus st = "completed" ↔ st = Some "completed")
  ∧ (mapToolStatus st = "error" ↔ st = Some "failed")
  ∧ (mapToolStatus st = "pending"
     ↔ st ≠ Some "in_progress" ∧ st ≠ Some "completed" ∧ st ≠ Some "failed").
Proof.
  unfold mapToolStatus. destruct st as [s|]; [|by repeat split].
  destruct (String.eqb_spec s "pending") as [->|?]; [by repeat split|].
  destruct (String.eqb_spec s "in_progress") as [->|?].
  { repeat split; try done. by intros (Hne & _). }
  destruct (String.eqb_spec s "completed") as [->|?].
  { repeat split; try done. by intros (_ & Hne & _). }
  destruct (String.eqb_spec s "failed") as [->|?].
  { repeat split; try done. by intros (_ & _ & Hne). }
  repeat split; try done; intros [= ->]; done.
Qed.

Lemma mapToolStatus_inverse_witness :
  mapToolStatus (Some "failed") = "error"
  ∧ mapToolStatus (Some "cancelled") = "pending".
Proof.
  destruct (mapToolStatus_inverse (Some "failed")) as (_ & _ & Herror & _).
  destruct (mapToolStatus_inverse (Some "cancelled")) as (_ & _ & _ & Hpending).
  split.
  - apply Herror. reflexivity.
  - apply Hpending. repeat split; discriminate.
Defined.

End AcpMoreFacts.

(** * Properties of the conversation manager *)

Module ConversationFacts.
Import Wizard WizardSpec Conversation MoreSamples.

Lemma split_nonempty (s : string) : split s ≠ [].
Proof.
  induction s as [|c s IH]; simpl; [done|].
  destruct (Ascii.eqb c newline); [done|]. by destruct (split s).
Qed.

Lemma join_cons_char (c : ascii) (l : string) (ls : list string) :
  join (String c l :: ls) = String c (join (l :: ls)).
Proof. by destruct ls. Qed.

Lemma hasNewline_String (c : ascii) (l : string) :
  hasNewline (String c l) = Ascii.eqb newline c || hasNewline l.
Proof. reflexivity. Qed.

(** X11: cutting an output at its newlines and gluing the lines with newlines
    gives the output back, and the lines are free of newlines, one more
    than there are newlines in the output. *)
Theorem join_split (output : string) :
  join (split output) = output
  ∧ Forall (fun line => hasNewline line = false) (split output)
  ∧ List.length (split output)
    = S (List.length (filter (fun c => c = newline) (list_ascii_of_string output))).
Proof.
  induction output as [|c s (IHjoin & IHfree & IHlen)]; simpl.
  - split; [done|]. split; [|done]. by repeat constructor.
  - destruct (Ascii.eqb_spec c newline) as [->|Hc].
    + split; [|split].
      * destruct (split s) as [|l ls] eqn:Hs; [by apply split_nonempty in Hs|].
        simpl. simpl in IHjoin. by rewrite <- IHjoin.
      * by constructor.
      * rewrite filter_cons_True by done. simpl. by rewrite IHlen.
    + destruct (split s) as [|l ls] eqn:Hs; [by apply split_nonempty in Hs|].
      split; [|split].
      * rewrite join_cons_char. by rewrite IHjoin.
      * apply Forall_cons in IHfree as [Hl Hls]. constructor; [|done].
        rewrite hasNewline_String, Hl, Ascii.eqb_sym.
        by destruct (Ascii.eqb_spec c newline).
      * rewrite filter_cons_False by done. simpl in *. done.
Qed.

Lemma resultOf_sound (msg r : JsValue) :
  resultOf msg = Some r →
  truthy r = true
  ∧ ∃ props, msg = JObj props
             ∧ lookupProp props "type" = Some (JStr "result")
             ∧ lookupProp props "result" = Some r.
Proof.
  unfold resultOf. destruct msg as [| | | | | |props|]; try done.
  destruct (lookupProp props "type") as [[| | | |ty| | |]|] eqn:Hty; try done.
  destruct (String.eqb_spec ty "result") as [->|_]; [|done].
  destruct (lookupProp props "result") as [r'|] eqn:Hr; [|done].
  destruct (truthy r') eqn:Htr; [|done]. intros [= <-]. eauto.
Qed.

Lemma extract_sound JSON_parse (output : string) (r : JsValue) :
  extractResultFromStreamJson JSON_parse output = Some r →
  truthy r = true
  ∧ ∃ line props, line ∈ split output
      ∧ JSON_parse line = Some (JObj props)
      ∧ lookupProp props "type" = Some (JStr "result")
      ∧ lookupProp props "result" = Some r.
Proof.
  unfold extractResultFromStreamJson, tryCatch.
  rewrite WizardFacts.scanLines_head. intros Hhead.
  apply head_Some_elem_of, list_elem_of_omap in Hhead as (line & Hline & Hres).
  unfold lineResult in Hres. destruct (isBlank line); [done|].
  destruct (JSON_parse line) as [msg|] eqn:Hparse; [|done].
  apply resultOf_sound in Hres as (Htruthy & props & -> & Hty & Hr).
  split; [done|]. eauto 10.
Qed.

(** X12: a result that is extracted is never falsy, and it is the [result]
    field of a record of type [result] that some line of the output parses
    to. *)
Theorem extracted_result_is_sound (JSON_parse : string -> option JsValue)
    (output : string) (r : JsValue) :
  extractResultFromStreamJson JSON_parse output = Some r →
  truthy r = true
  ∧ ∃ line props, line ∈ split output
      ∧ JSON_parse line = Some (JObj props)
      ∧ lookupProp props "type" = Some (JStr "result")
      ∧ lookupProp props "result" = Some r.
Proof. apply extract_sound. Qed.

Lemma extracted_result_is_sound_witness :
  truthy (JStr "done") = true.
Proof.
  apply (extracted_result_is_sound Samples.sampleParse
           (join Samples.sampleStream) (JStr "done")).
  vm_compute. reflexivity.
Defined.

Lemma extract_none_unparsed JSON_parse (output : string) :
  (∀ line, line ∈ split output → JSON_parse line = None) →
  extractResultFromStreamJson JSON_parse output = None.
Proof.
  intros Hnone. destruct (extractResultFromStreamJson JSON_parse output) as [r|] eqn:He;
    [|done].
  apply extract_sound in He as (_ & line & props & Hin & Hparse & _).
  rewrite (Hnone line Hin) in Hparse. done.
Qed.

(** X13: what reaches the structured parser: the extracted result when the
    output holds one, and the whole raw output when none of its lines
    parses. *)
Theorem parseAgentOutput_input (parseStructuredOutput : JsValue -> ParsedResponse)
    (JSON_parse : string -> option JsValue) (s : ConversationSession) :
  (∀ r, extractResultFromStreamJson JSON_parse s.(outputBuffer) = Some r →
        parseAgentOutput parseStructuredOutput JSON_parse (Some s)
        = parseStructuredOutput r)
  ∧ ((∀ line, line ∈ split s.(outputBuffer) → JSON_parse line = None) →
     parseAgentOutput parseStructuredOutput JSON_parse (Some s)
     = parseStructuredOutput (JStr s.(outputBuffer))).
Proof.
  unfold parseAgentOutput, textToParse. split.
  - intros r Hr. rewrite Hr. apply extract_sound in Hr as [-> _]. done.
  - intros Hnone. by rewrite extract_none_unparsed.
Qed.

Lemma parseAgentOutput_input_witness :
  parseAgentOutput sampleParseStructured Samples.sampleParse
    (onData (Some wizardSession) "wizard-1" "plain words").1
  = sampleParseStructured (JStr "plain words").
Proof.
  destruct (parseAgentOutput_input sampleParseStructured Samples.sampleParse
              {| sessionId := "wizard-1"; agentType := "opencode";
                 directoryPath := "/tmp/p"; projectName := "demo"; isActive := true;
                 systemPrompt := "You are a guide."; outputBuffer := "plain words";
                 pendingResolve := true; dataListener := true; exitListener := true |})
    as [_ Hraw].
  apply Hraw. intros line Hin. simpl in Hin.
  apply list_elem_of_singleton in Hin as ->. vm_compute. reflexivity.
Defined.

Lemma append_assoc (a b c : string) : (a +:+ b) +:+ c = a +:+ b +:+ c.
Proof.
  induction a as [|x a IH]; [reflexivity|].
  change (String x ((a +:+ b) +:+ c) = String x (a +:+ b +:+ c)). congruence.
Qed.

Lemma append_empty_r (a : string) : a +:+ "" = a.
Proof.
  induction a as [|x a IH]; [reflexivity|].
  change (String x (a +:+ "") = String x a). congruence.
Qed.

Lemma append_nonempty (a b : string) : b ≠ "" → a +:+ b ≠ "".
Proof. destruct a; [done|]. intros _. discriminate. Qed.

Lemma appendMessage_render (prompt : string) (msg : WizardMessage) :
  appendMessage prompt msg = prompt +:+ renderMessage msg.
Proof.
  unfold appendMessage, renderMessage.
  destruct (String.eqb (role msg) "user"); [done|].
  destruct (String.eqb (role msg) "assistant"); [done|].
  by rewrite append_empty_r.
Qed.

Lemma fold_appendMessage (history : list WizardMessage) (prompt : string) :
  fold_left appendMessage history prompt
  = prompt +:+ fold_right (fun msg rest => renderMessage msg +:+ rest) "" history.
Proof.
  revert prompt. induction history as [|msg history IH]; intros prompt; simpl.
  - by rewrite append_empty_r.
  - by rewrite IH, appendMessage_render, append_assoc.
Qed.

Lemma buildPrompt_layout (formatUserMessage : string -> string)
    (s : ConversationSession) (userMessage : string) (history : list WizardMessage) :
  buildPromptWithContext formatUserMessage (Some s) userMessage history
  = s.(systemPrompt) +:+ nl +:+ nl +:+ historyBlock history
    +:+ "## Current Message" +:+ nl +:+ nl +:+ formatUserMessage userMessage.
Proof.
  unfold buildPromptWithContext, historyBlock.
  destruct history as [|msg history].
  { change (0 <? List.length (@nil WizardMessage))%nat with false. cbv iota.
    rewrite !append_assoc. reflexivity. }
  change (0 <? List.length (msg :: history))%nat with true. cbv iota.
  rewrite fold_appendMessage. by rewrite !append_assoc.
Qed.

Lemma renderMessage_other (msg : WizardMessage) :
  msg.(role) ≠ "user" → msg.(role) ≠ "assistant" → renderMessage msg = "".
Proof.
  intros Hu Ha. unfold renderMessage.
  apply String.eqb_neq in Hu, Ha. by rewrite Hu, Ha.
Qed.

Lemma render_app (h1 h2 : list WizardMessage) :
  fold_right (fun msg rest => renderMessage msg +:+ rest) "" (h1 ++ h2)
  = fold_right (fun msg rest => renderMessage msg +:+ rest) "" h1
    +:+ fold_right (fun msg rest => renderMessage msg +:+ rest) "" h2.
Proof.
  induction h1 as [|m h1 IH]; simpl; [done|]. by rewrite IH, append_assoc.
Qed.

(** X14: the prompt of a message is the system prompt, a blank line, the
    history under its heading (nothing at all for an empty history), and
    the formatted message under its own heading.  A message that is neither
    the user's nor the assistant's adds nothing: it can be taken out of a
    history that stays non-empty. *)
Theorem prompt_layout (formatUserMessage : string -> string)
    (s : ConversationSession) (userMessage : string) (history : list WizardMessage) :
  buildPromptWithContext formatUserMessage (Some s) userMessage history
  = s.(systemPrompt) +:+ nl +:+ nl +:+ historyBlock history
    +:+ "## Current Message" +:+ nl +:+ nl +:+ formatUserMessage userMessage
  ∧ (∀ before msg after,
       history = before ++ msg :: after →
       msg.(role) ≠ "user" → msg.(role) ≠ "assistant" →
       before ++ after ≠ [] →
       buildPromptWithContext formatUserMessage (Some s) userMessage history
       = buildPromptWithContext formatUserMessage (Some s) userMessage
           (before ++ after)).
Proof.
  split; [apply buildPrompt_layout|].
  intros before msg after -> Hu Ha Hne. rewrite !buildPrompt_layout.
  do 3 f_equal. unfold historyBlock.
  destruct (before ++ after) as [|m rest] eqn:Hrest; [done|].
  destruct (before ++ msg :: after) as [|m' rest'] eqn:Hfull;
    [by destruct before|].
  rewrite <- Hrest, <- Hfull. do 3 f_equal.
  rewrite !render_app. simpl. by rewrite renderMessage_other.
Qed.

Lemma prompt_layout_witness :
  buildPromptWithContext sampleFormat (Some wizardSession) "go on" sampleHistory
  = buildPromptWithContext sampleFormat (Some wizardSession) "go on"
      [userSays 1 "hi"; assistantSays 3 "hello"].
Proof.
  destruct (prompt_layout sampleFormat wizardSession "go on" sampleHistory)
    as [_ Hdrop].
  apply (Hdrop [userSays 1 "hi"] (systemSays 2 "note") [assistantSays 3 "hello"]).
  - reflexivity.
  - discriminate.
  - discriminate.
  - discriminate.
Defined.

Lemma chunksOf_cons (id sid data : string) (chunks : list (string * string)) :
  chunksOf id ((sid, data) :: chunks)
  = if String.eqb sid id then data +:+ chunksOf id chunks else chunksOf id chunks.
Proof. reflexivity. Qed.

Lemma feed_cons (session : option ConversationSession) (sid data : string)
    (chunks : list (string * string)) :
  feed session ((sid, data) :: chunks) = feed (onData session sid data).1 chunks.
Proof. reflexivity. Qed.

Lemma feed_matching (chunks : list (string * string)) :
  ∀ s, ∃ s', feed (Some s) chunks = Some s'
    ∧ s'.(sessionId) = s.(sessionId)
    ∧ s'.(outputBuffer) = s.(outputBuffer) +:+ chunksOf s.(sessionId) chunks.
Proof.
  induction chunks as [|[sid data] chunks IH]; intros s.
  - exists s. split; [done|]. split; [done|].
    change (chunksOf (sessionId s) []) with "". by rewrite append_empty_r.
  - rewrite feed_cons, chunksOf_cons. unfold onData.
    destruct (String.eqb sid (sessionId s)); cbn [fst].
    + destruct (IH {| sessionId := sessionId s; agentType := agentType s;
                      directoryPath := directoryPath s; projectName := projectName s;
                      isActive := isActive s; systemPrompt := systemPrompt s;
                      outputBuffer := outputBuffer s +:+ data;
                      pendingResolve := pendingResolve s;
                      dataListener := dataListener s;
                      exitListener := exitListener s |})
        as (s' & Hfeed & Hid & Hbuf).
      exists s'. cbn [sessionId outputBuffer] in Hid, Hbuf.
      by rewrite Hfeed, Hid, Hbuf, append_assoc.
    + destruct (IH s) as (s' & Hfeed & Hid & Hbuf).
      exists s'. by rewrite Hfeed, Hid, Hbuf.
Qed.

(** X15: the output buffer grows by the chunks of the manager's own session, in
    the order they arrive, and by nothing else: chunks of other sessions
    leave it alone, and so does every chunk once there is no session. *)
Theorem buffer_collects_own_chunks (session : option ConversationSession)
    (chunks : list (string * string)) :
  outputBuffer <$> feed session chunks
  = (fun s => s.(outputBuffer) +:+ chunksOf s.(sessionId) chunks) <$> session.
Proof.
  destruct session as [s|]; simpl.
  - destruct (feed_matching chunks s) as (s' & Hfeed & _ & Hbuf).
    rewrite Hfeed. simpl. by rewrite Hbuf.
  - unfold feed. by induction chunks as [|c chunks IH].
Qed.

(** X16: when the process of another session exits nothing happens.  When the
    manager's own process exits, the listeners are taken off and the
    pending message is settled once, with the raw output in any case:
    successfully, with the parsed output, exactly when the exit code is 0,
    and with an error naming the code otherwise. *)
Theorem exit_settles_by_code (parseStructuredOutput : JsValue -> ParsedResponse)
    (JSON_parse : string -> option JsValue) (s : ConversationSession)
    (sid : string) (code : Z) :
  (sid ≠ s.(sessionId) →
   onExit parseStructuredOutput JSON_parse (Some s) sid code = (Some s, []))
  ∧ ∃ s' cleanups r,
      onExit parseStructuredOutput JSON_parse (Some s) s.(sessionId) code
      = (Some s', cleanups ++ [Resolve r])
      ∧ Forall (fun eff => eff = CleanupData ∨ eff = CleanupExit) cleanups
      ∧ s'.(dataListener) = false ∧ s'.(exitListener) = false
      ∧ s'.(outputBuffer) = s.(outputBuffer)
      ∧ r.(success) = (code =? 0)%Z
      ∧ r.(rawOutput) = Some s.(outputBuffer)
      ∧ (code = 0%Z →
         r.(response)
         = Some (parseStructuredOutput (textToParse JSON_parse s.(outputBuffer)))
         ∧ r.(error) = None)
      ∧ (code ≠ 0%Z →
         r.(response) = None
         ∧ r.(error) = Some ("Agent exited with code " +:+ showCode code)).
Proof.
  split.
  - intros Hne. unfold onExit. apply String.eqb_neq in Hne. by rewrite Hne.
  - unfold onExit. rewrite String.eqb_refl. cbn [cleanupListeners].
    assert (Hcleanups :
      Forall (fun eff => eff = CleanupData ∨ eff = CleanupExit)
        ((if dataListener s then [CleanupData] else [])
         ++ (if exitListener s then [CleanupExit] else []))).
    { destruct (dataListener s), (exitListener s); simpl;
        repeat (apply List.Forall_cons; [auto|]); apply List.Forall_nil. }
    destruct (Z.eqb_spec code 0) as [->|Hcode].
    + eexists _, _, _. split; [reflexivity|]. split; [exact Hcleanups|].
      cbn. do 5 (split; [reflexivity|]). split; [done|]. intros Hne. by destruct Hne.
    + eexists _, _, _. split; [reflexivity|]. split; [exact Hcleanups|].
      cbn. do 5 (split; [reflexivity|]). split; [|done]. intros Heq. by destruct Hcode.
Qed.

Lemma exit_settles_by_code_witness :
  onExit sampleParseStructured Samples.sampleParse (Some wizardSession) "other-ai" 1
  = (Some wizardSession, []).
Proof.
  apply (exit_settles_by_code sampleParseStructured Samples.sampleParse
           wizardSession "other-ai" 1).
  discriminate.
Defined.

(** X17: the cleanup functions of the listeners run once: after the exit of
    the manager's own process has been handled, cleaning up again does
    nothing, and ending the conversation only kills the process. *)
Theorem listeners_cleaned_once (parseStructuredOutput : JsValue -> ParsedResponse)
    (JSON_parse : string -> option JsValue) (s : ConversationSession) (code : Z) :
  let after := (onExit parseStructuredOutput JSON_parse (Some s) s.(sessionId) code).1 in
  cleanupListeners (cleanupListeners (Some s)).1 = ((cleanupListeners (Some s)).1, [])
  ∧ cleanupListeners after = (after, [])
  ∧ endConversation after = (None, [ProcessKill s.(sessionId)]).
Proof.
  cbv zeta. unfold onExit. rewrite String.eqb_refl. cbn [cleanupListeners].
  by destruct (code =? 0)%Z.
Qed.

(** X18: starting a conversation always leaves one active session with the
    drawn id and an empty buffer; a session that was there before is ended
    first, its process killed once, after its listeners are taken off.
    Ending a conversation kills the process of the session and drops it;
    ending again does nothing. *)
Theorem conversation_lifecycle (generateSystemPrompt : string -> string -> string)
    (newId agent dir project : string) (session : option ConversationSession) :
  let started := startConversation generateSystemPrompt newId agent dir project session in
  started.2 = newId
  ∧ isConversationActive started.1.1 = true
  ∧ outputBuffer <$> started.1.1 = Some ""
  ∧ (newId ≠ "" → getSessionId started.1.1 = Some newId)
  ∧ (session = None → started.1.2 = [])
  ∧ (∀ old, session = Some old →
       ∃ cleanups, started.1.2 = cleanups ++ [ProcessKill old.(sessionId)]
         ∧ Forall (fun eff => eff = CleanupData ∨ eff = CleanupExit) cleanups)
  ∧ endConversation started.1.1 = (None, [ProcessKill newId])
  ∧ endConversation (endConversation session).1 = (None, [])
  ∧ isConversationActive (endConversation session).1 = false
  ∧ getSessionId (endConversation session).1 = None.
Proof.
  assert (Hend : (endConversation session).1 = None).
  { by destruct session. }
  cbv zeta. rewrite Hend. unfold startConversation.
  destruct session as [old|]; cbn.
  - split; [done|]. split; [done|]. split; [done|]. split.
    { intros Hne. apply String.eqb_neq in Hne. by rewrite Hne. }
    split; [done|]. split; [|done].
    intros ? [= <-]. eexists. split; [reflexivity|].
    destruct (dataListener old), (exitListener old); simpl;
      repeat (apply List.Forall_cons; [auto|]); apply List.Forall_nil.
  - split; [done|]. split; [done|]. split; [done|]. split.
    { intros Hne. apply String.eqb_neq in Hne. by rewrite Hne. }
    done.
Qed.

Lemma conversation_lifecycle_witness :
  (∃ cleanups,
     (startConversation (fun name path => name +:+ " at " +:+ path)
        "wizard-2" "opencode" "/tmp/q" "next" (Some wizardSession)).1.2
     = cleanups ++ [ProcessKill "wizard-1"])
  ∧ getSessionId
      (startConversation (fun name path => name +:+ " at " +:+ path)
         "wizard-2" "opencode" "/tmp/q" "next" (Some wizardSession)).1.1
    = Some "wizard-2".
Proof.
  destruct (conversation_lifecycle (fun name path => name +:+ " at " +:+ path)
              "wizard-2" "opencode" "/tmp/q" "next" (Some wizardSession))
    as (_ & _ & _ & Hid & _ & Hkill & _).
  split.
  - destruct (Hkill wizardSession eq_refl) as (cleanups & Heffs & _).
    exists cleanups. exact Heffs.
  - apply Hid. discriminate.
Defined.

Lemma convertFrom_length genId (messages : list WizardMessage) :
  ∀ k, List.length (convertFrom genId k messages) = List.length messages.
Proof. induction messages as [|m ms IH]; intros k; simpl; [done|]. by rewrite IH. Qed.

Lemma convertFrom_lookup genId (messages : list WizardMessage) :
  ∀ k i, convertFrom genId k messages !! i = toLogEntry genId (k + i) <$> messages !! i.
Proof.
  induction messages as [|m ms IH]; intros k i; [done|].
  destruct i as [|i]; simpl.
  - by rewrite Nat.add_0_r.
  - rewrite IH. by replace (S k + i)%nat with (k + S i)%nat by lia.
Qed.

Lemma convertFrom_texts genId (messages : list WizardMessage) :
  ∀ k, map log_text (convertFrom genId k messages) = map msg_content messages
       ∧ map log_timestamp (convertFrom genId k messages) = map msg_timestamp messages
       ∧ map log_id (convertFrom genId k messages)
         = map genId (seq k (List.length messages)).
Proof.
  induction messages as [|m ms IH]; intros k; simpl; [done|].
  destruct (IH (S k)) as (-> & -> & ->). done.
Qed.

(** X19: the log entries follow the messages one for one and in order, with
    their text and time; the entries draw the ids one after the other; an
    entry is marked delivered exactly when its message is the user's, and
    its source is [ai] exactly for the assistant's messages and otherwise
    [user] or [system]. *)
Theorem log_entries_follow_messages (genId : nat -> string)
    (messages : list WizardMessage) :
  map log_text (convertWizardMessagesToLogEntries genId messages)
  = map msg_content messages
  ∧ map log_timestamp (convertWizardMessagesToLogEntries genId messages)
    = map msg_timestamp messages
  ∧ map log_id (convertWizardMessagesToLogEntries genId messages)
    = map genId (seq 0 (List.length messages))
  ∧ (∀ i e, convertWizardMessagesToLogEntries genId messages !! i = Some e →
       ∃ m, messages !! i = Some m
         ∧ (e.(delivered) = Some true ↔ m.(role) = "user")
         ∧ (e.(source) = "user" ↔ m.(role) = "user")
         ∧ (e.(source) = "ai" ↔ m.(role) = "assistant")
         ∧ e.(source) ∈ ["user"; "ai"; "system"]).
Proof.
  unfold convertWizardMessagesToLogEntries.
  destruct (convertFrom_texts genId messages 0) as (Ht & Hts & Hid).
  split; [done|]. split; [done|]. split; [done|].
  intros i e He. rewrite convertFrom_lookup in He.
  destruct (messages !! i) as [m|]; [|done]. injection He as <-.
  exists m. split; [done|]. unfold toLogEntry. simpl.
  destruct (String.eqb_spec (role m) "user") as [Hu|Hu].
  - rewrite Hu. repeat split; try done. set_solver.
  - destruct (String.eqb_spec (role m) "assistant") as [Ha|Ha].
    + repeat split; try done. set_solver.
    + repeat split; try done. set_solver.
Qed.

Lemma log_entries_follow_messages_witness :
  map source (convertWizardMessagesToLogEntries sampleGenId sampleHistory)
  = ["user"; "system"; "ai"]
  ∧ ∃ m, sampleHistory !! 0%nat = Some m ∧ m.(role) = "user".
Proof.
  split; [vm_compute; reflexivity|].
  destruct (log_entries_follow_messages sampleGenId sampleHistory)
    as (_ & _ & _ & Hentry).
  destruct (Hentry 0%nat (toLogEntry sampleGenId 0 (userSays 1 "hi")) eq_refl)
    as (m & Hm & Hdelivered & _).
  exists m. split; [exact Hm|]. apply Hdelivered. reflexivity.
Defined.

(** X20: the logs of the Project Discovery tab are one system entry, stamped
    with the current time and naming the project (or "your project" when
    it has no name), followed by the entries of the conversation; when the
    id generator never repeats itself, no two entries share an id. *)
Theorem project_discovery_logs (genId : nat -> string) (now : Z)
    (messages : list WizardMessage) (projectName : string) :
  ∃ header,
    createProjectDiscoveryLogs genId now messages projectName
    = header :: convertFrom genId 1 messages
    ∧ header.(source) = "system"
    ∧ header.(log_timestamp) = now
    ∧ header.(delivered) = None
    ∧ header.(log_text)
      = clipboard +:+ " Project Discovery conversation from setup wizard for "
        +:+ dquote +:+ (if String.eqb projectName "" then "your project" else projectName)
        +:+ dquote
    ∧ map log_text (convertFrom genId 1 messages) = map msg_content messages
    ∧ List.length (createProjectDiscoveryLogs genId now messages projectName)
      = S (List.length messages)
    ∧ ((∀ i j, genId i = genId j → i = j) →
       NoDup (map log_id (createProjectDiscoveryLogs genId now messages projectName))).
Proof.
  unfold createProjectDiscoveryLogs. eexists. split; [reflexivity|]. simpl.
  destruct (convertFrom_texts genId messages 1) as (Ht & _ & Hid).
  split; [done|]. split; [done|]. split; [done|]. split.
  { by destruct (String.eqb projectName ""). }
  split; [done|]. split; [by rewrite convertFrom_length|].
  intros Hinj. rewrite Hid.
  change (genId 0 :: map genId (seq 1 (List.length messages)))
    with (map genId (seq 0 (S (List.length messages)))).
  apply NoDup_fmap_2; [|apply NoDup_seq].
  intros i j. apply Hinj.
Qed.

Lemma tallyId_length (k : nat) : String.length (tallyId k) = (k + 3)%nat.
Proof. induction k as [|k IH]; simpl; [done|]. by rewrite IH. Qed.

Lemma tallyId_inj (i j : nat) : tallyId i = tallyId j → i = j.
Proof.
  intros Heq. apply (f_equal String.length) in Heq.
  rewrite !tallyId_length in Heq. lia.
Qed.

Lemma project_discovery_logs_witness :
  NoDup (map log_id (createProjectDiscoveryLogs tallyId 1700000000000
                       sampleHistory "")).
Proof.
  destruct (project_discovery_logs tallyId 1700000000000 sampleHistory "")
    as (header & _ & _ & _ & _ & _ & _ & _ & Hnodup).
  apply Hnodup. exact tallyId_inj.
Defined.

(** X21: the assistant message made from a response shows the structured
    message when there is a non-empty one and the raw text otherwise, so
    its content is empty only when the raw text is; and a response leads to
    auto-proceeding only when it parsed, is structured and is ready. *)
Theorem assistant_message_content (isReadyToProceed : StructuredAgentResponse -> bool)
    (response : ParsedResponse) :
  (∀ st, response.(structured) = Some st → st.(message) ≠ "" →
         (createAssistantMessage response).(new_content) = st.(message))
  ∧ (response.(structured) = None
     ∨ (∃ st, response.(structured) = Some st ∧ st.(message) = "") →
     (createAssistantMessage response).(new_content) = response.(rawText))
  ∧ ((createAssistantMessage response).(new_content) = "" → response.(rawText) = "")
  ∧ (shouldAutoProceed isReadyToProceed response = true →
     response.(parseSuccess) = true
     ∧ ∃ st, response.(structured) = Some st ∧ isReadyToProceed st = true).
Proof.
  unfold createAssistantMessage, shouldAutoProceed. cbn [new_content].
  split; [|split; [|split]].
  - intros st -> Hne. apply String.eqb_neq in Hne. simpl. by rewrite Hne.
  - intros [-> | (st & -> & ->)]; done.
  - destruct (structured response) as [st|]; [|done]. simpl.
    destruct (String.eqb_spec (message st) "") as [_|Hne]; simpl; [done|].
    intros Heq. by destruct Hne.
  - intros Hauto. apply andb_true_iff in Hauto as [Hparse Hready].
    split; [done|]. destruct (structured response) as [st|]; [eauto | done].
Qed.

Lemma assistant_message_content_witness :
  (createAssistantMessage
     {| structured := Some {| message := ""; confidence := JNull; ready := false |};
        rawText := "raw words"; parseSuccess := true; parseError := None |}).(new_content)
  = "raw words".
Proof.
  destruct (assistant_message_content (fun st => st.(ready))
              {| structured := Some {| message := ""; confidence := JNull;
                                       ready := false |};
                 rawText := "raw words"; parseSuccess := true; parseError := None |})
    as (_ & Hraw & _).
  apply Hraw. right. eexists. split; reflexivity.
Defined.

Lemma buildPrompt_nonempty (formatUserMessage : string -> string)
    (s : ConversationSession) (userMessage : string) (history : list WizardMessage) :
  truthyStr (Some (buildPromptWithContext formatUserMessage (Some s) userMessage history))
  = true.
Proof.
  rewrite buildPrompt_layout. simpl. apply negb_true_iff, String.eqb_neq.
  apply append_nonempty. discriminate.
Qed.

(** X22: a message of the wizard always goes out in batch mode: its prompt is
    never empty, so the argv is the agent's batch-mode prefix (when it
    declares one), the agent's own args, the JSON-output flags and the
    user-config fragments, and never holds a resume, read-only or model
    fragment. *)
Theorem wizard_spawn_argv (formatUserMessage : string -> string)
    (agent : Process.AgentConfig) (configs : gmap string (gmap string JsValue))
    (s : ConversationSession) (agentCommand : string)
    (agentArgs : option (list string)) (userMessage : string)
    (history : list WizardMessage) :
  let config :=
    wizardSpawnConfig s agentCommand agentArgs
      (buildPromptWithContext formatUserMessage (Some s) userMessage history) in
  Process.buildFinalArgs (Some agent) configs config
  = option.default [] agent.(Process.batchModePrefix)
    ++ option.default [] agentArgs
    ++ ProcessSpec.jsonFragment agent config
    ++ ProcessSpec.configFragment agent configs config.
Proof.
  cbv zeta. rewrite ProcessFacts.buildFinalArgs_closed.
  unfold ProcessSpec.batchFragment, ProcessSpec.resumeFragment,
    ProcessSpec.readOnlyFragment, ProcessSpec.modelFragment.
  cbn [wizardSpawnConfig Process.prompt Process.agentSessionId Process.readOnlyMode
       Process.modelId Process.args].
  rewrite buildPrompt_nonempty.
  by destruct (Process.batchModePrefix agent).
Qed.

End ConversationFacts.
